(** * nestjs-unblocker-microservice: the page-fetch service

    A shallow embedding of [UnblockerService] (src/unblocker/unblocker.service.ts,
    stored as the second part of src/src/unblocker/unblocker.controller.ts):
    the shared browser handle ([getBrowser]), the per-request fetch
    ([getPageContent]) with its try / catch / finally, and the request
    interception handler installed by [page.on('request', ...)].

    JavaScript strings are modelled as [string]; every needle and pattern of
    the service is ASCII, so substring tests agree whether the text is read
    as UTF-16 code units or as UTF-8 bytes.  Numbers are [Z].  An awaited
    Puppeteer call either resolves or rejects: its outcome is supplied by a
    [Puppeteer] record (a test double), and every call the service makes is
    appended to a trace. *)

From Stdlib Require Import String Ascii List ZArith Lia Bool DecimalString.
Import ListNotations.
Local Open Scope string_scope.
Local Open Scope Z_scope.

(** ** JavaScript strings *)

Module JsString.

(** [s.startsWith(sub)] *)
Fixpoint startsWith (s sub : string) {struct sub} : bool :=
  match sub with
  | EmptyString => true
  | String c sub' =>
      match s with
      | EmptyString => false
      | String d s' => Ascii.eqb d c && startsWith s' sub'
      end
  end.

(** [s.includes(sub)]: [sub] occurs at some index of [s]. *)
Fixpoint includes (s sub : string) : bool :=
  startsWith s sub ||
  match s with
  | EmptyString => false
  | String _ s' => includes s' sub
  end.

(** [`${n}`] for an integral number. *)
Definition ofNumber (n : Z) : string := NilZero.string_of_int (Z.to_int n).

(** [`${v}`] for a value that may be nullish. *)
Definition ofNullable (v : option string) : string :=
  match v with
  | Some s => s
  | None => "undefined"
  end.

(** [lhs ?? rhs] *)
Definition nullish {A : Type} (lhs : option A) (rhs : A) : A :=
  match lhs with
  | Some v => v
  | None => rhs
  end.

(** [list.some(p)] *)
Definition some {A : Type} (p : A -> bool) (l : list A) : bool := existsb p l.

(** The declarative reading of "contains". *)
Definition Substring (sub s : string) : Prop :=
  exists pre post, s = pre ++ sub ++ post.

End JsString.

(** ** Regular expressions

    The fragment of ECMAScript patterns that [PXSCRIPT_PATTERN] uses:
    literal characters, a character class of ranges, concatenation and the
    greedy [+] quantifier, under the [i] flag.  As in the language
    definition, a matcher takes the rest of the input and a continuation. *)

Module RegExp.

Inductive ClassItem : Type :=
| Range (lo hi : ascii)
| Single (c : ascii).

Inductive Node : Type :=
| Lit (c : ascii)
| Class (items : list ClassItem)
| Seq (a b : Node)
| Plus (a : Node).

Record t : Type := mk { source : Node; ignoreCase : bool }.

Definition toUpperCase (ch : ascii) : ascii :=
  let n := nat_of_ascii ch in
  if (Nat.leb 97 n && Nat.leb n 122)%bool then ascii_of_nat (n - 32) else ch.

(** Canonicalize of the language definition, on ASCII.  A character above
    127 never canonicalizes to an ASCII one, so leaving it alone gives
    the same matches against an ASCII pattern. *)
Definition canonicalize (ic : bool) (ch : ascii) : ascii :=
  if ic then toUpperCase ch else ch.

Definition members (i : ClassItem) : list ascii :=
  match i with
  | Range lo hi =>
      map ascii_of_nat
        (seq (nat_of_ascii lo) (S (nat_of_ascii hi) - nat_of_ascii lo))
  | Single c => [c]
  end.

(** A class matches [ch] when some member canonicalizes like [ch]. *)
Definition classMatches (ic : bool) (items : list ClassItem) (ch : ascii) : bool :=
  existsb (fun a => Ascii.eqb (canonicalize ic a) (canonicalize ic ch))
          (flat_map members items).

Definition litMatches (ic : bool) (c ch : ascii) : bool :=
  Ascii.eqb (canonicalize ic ch) (canonicalize ic c).

(** Greedy repetition, one or more times: after one match of the body,
    first try another round, then the continuation.  Every round consumes
    a character, so the length of the input bounds the rounds. *)
Fixpoint iterate (body : string -> (string -> bool) -> bool)
         (k : string -> bool) (fuel : nat) (s : string) : bool :=
  body s (fun s' =>
            match fuel with
            | O => k s'
            | S fuel' => iterate body k fuel' s' || k s'
            end).

Fixpoint run (ic : bool) (r : Node) (s : string) (k : string -> bool) : bool :=
  match r with
  | Lit c =>
      match s with
      | String ch s' => litMatches ic c ch && k s'
      | EmptyString => false
      end
  | Class items =>
      match s with
      | String ch s' => classMatches ic items ch && k s'
      | EmptyString => false
      end
  | Seq a b => run ic a s (fun s' => run ic b s' k)
  | Plus a => iterate (run ic a) k (String.length s) s
  end.

(** A match may start at any index (no [g] or [y] flag: [lastIndex] is
    neither read nor written). *)
Fixpoint search (ic : bool) (r : Node) (s : string) : bool :=
  run ic r s (fun _ => true) ||
  match s with
  | EmptyString => false
  | String _ s' => search ic r s'
  end.

(** [re.test(s)] *)
Definition test (re : t) (s : string) : bool :=
  search (ignoreCase re) (source re) s.

(** The strings a pattern denotes. *)
Inductive Matches (ic : bool) : Node -> string -> Prop :=
| MLit c ch :
    litMatches ic c ch = true -> Matches ic (Lit c) (String ch EmptyString)
| MClass items ch :
    classMatches ic items ch = true ->
    Matches ic (Class items) (String ch EmptyString)
| MSeq a b s1 s2 :
    Matches ic a s1 -> Matches ic b s2 -> Matches ic (Seq a b) (s1 ++ s2)
| MPlusOne a s :
    Matches ic a s -> Matches ic (Plus a) s
| MPlusMore a s1 s2 :
    Matches ic a s1 -> Matches ic (Plus a) s2 -> Matches ic (Plus a) (s1 ++ s2).

(** [s] has a substring denoted by the pattern. *)
Definition Found (re : t) (s : string) : Prop :=
  exists pre mid post,
    s = pre ++ mid ++ post /\ Matches (ignoreCase re) (source re) mid.

Fixpoint lits (s : string) : list Node :=
  match s with
  | EmptyString => []
  | String c s' => Lit c :: lits s'
  end.

Fixpoint seqs (first : Node) (rest : list Node) : Node :=
  match rest with
  | [] => first
  | r :: rest' => Seq first (seqs r rest')
  end.

End RegExp.

(** ** Static configuration *)

Record Brand : Type := { brand : string; version : string }.

Record UserAgentData : Type := {
  brands : list Brand;
  mobile : bool;
  uaPlatform : string;
  architecture : string;
  model : string;
  platformVersion : string;
  bitness : string;
  wow64 : bool
}.

Record Gpu : Type := { vendor : string; renderer : string }.

Record Profile : Type := {
  userAgent : string;
  userAgentData : UserAgentData;
  gpu : Gpu;
  platform : string;
  viewportWidth : Z;
  viewportHeight : Z;
  locale : string;
  timezone : string
}.

Definition GAMER_PROFILE : Profile := {|
  userAgent :=
    "Mozilla/5.0 (Windows NT 10.0; Win64; x64) AppleWebKit/537.36 (KHTML, like Gecko) Chrome/108.0.0.0 Safari/537.36";
  userAgentData := {|
    brands := [ {| brand := "Not.A\Brand"; version := "8" |};
                {| brand := "Chromium"; version := "108" |};
                {| brand := "Google Chrome"; version := "108" |} ];
    mobile := false;
    uaPlatform := "Windows";
    architecture := "x86";
    model := "";
    platformVersion := "15.0.0";
    bitness := "64";
    wow64 := false |};
  gpu := {| vendor := "NVIDIA Corporation";
            renderer := "NVIDIA GeForce RTX 4060 Laptop GPU" |};
  platform := "Win32";
  viewportWidth := 1920;
  viewportHeight := 1080;
  locale := "en-US,en";
  timezone := "America/New_York"
|}.

Definition PUPPETEER_LIFE_CYCLE_TYPE : string := "networkidle2".

(** The network idle timeout in milliseconds. *)
Definition NETWORK_IDLE_TIMEOUT : Z := 60000.

(** [/\/[A-Z0-9]+\/init\.js/i] *)
Definition PXSCRIPT_PATTERN : RegExp.t :=
  RegExp.mk
    (RegExp.seqs (RegExp.Lit "/")
       (RegExp.Plus (RegExp.Class [RegExp.Range "A" "Z"; RegExp.Range "0" "9"])
        :: RegExp.Lit "/"
        :: RegExp.lits "init.js"))
    true.

Definition BLOCKED_TRACKING_DOMAINS : list string :=
  [ "google-analytics.com";
    "googletagmanager.com";
    "doubleclick.net";
    "facebook.net";
    "twitter.com";
    "analytics.yahoo.com";
    "adservice.google.com" ].

(** The members of [HttpStatus] (an enum of @nestjs/common) the service
    names; their values are the standard HTTP codes. *)
Module HttpStatus.
Definition FORBIDDEN : Z := 403.
Definition INTERNAL_SERVER_ERROR : Z := 500.
Definition BAD_GATEWAY : Z := 502.
Definition GATEWAY_TIMEOUT : Z := 504.
End HttpStatus.

(** ** What the init-script pattern denotes, read off the pattern *)

Definition isAlnum (ch : ascii) : bool :=
  let n := nat_of_ascii ch in
  (Nat.leb 48 n && Nat.leb n 57) || (Nat.leb 65 n && Nat.leb n 90)
  || (Nat.leb 97 n && Nat.leb n 122).

Fixpoint allChars (p : ascii -> bool) (s : string) : bool :=
  match s with
  | EmptyString => true
  | String ch s' => p ch && allChars p s'
  end.

Fixpoint upper (s : string) : string :=
  match s with
  | EmptyString => EmptyString
  | String ch s' => String (RegExp.toUpperCase ch) (upper s')
  end.

(** A slash, one or more letters or digits, a slash, and [init.js] in any
    letter case. *)
Definition InitScriptPath (mid : string) : Prop :=
  exists run tail,
    mid = "/" ++ run ++ "/" ++ tail
    /\ run <> "" /\ allChars isAlnum run = true /\ upper tail = "INIT.JS".

(** [s] is the literal text [w], character by character. *)
Fixpoint sameText (ic : bool) (w s : string) : bool :=
  match w, s with
  | EmptyString, EmptyString => true
  | String c w', String ch s' => RegExp.litMatches ic c ch && sameText ic w' s'
  | _, _ => false
  end.

(** ** Results *)

Record PageContentResult : Type := {
  html : option string;         (* string | null *)
  status : Z;
  error : option string;        (* error?: string *)
  finalUrl : option string      (* finalUrl?: string *)
}.

(** ** Puppeteer objects, calls and their outcomes *)

Definition Browser : Type := nat.
Definition BrowserContext : Type := nat.
Definition Page : Type := nat.

Record HTTPRequest : Type := {
  req_url : string;
  req_method : string;
  req_resourceType : string
}.

Record HTTPResponse : Type := { resp_status : Z }.

(** What a rejected promise carries: a [TimeoutError] or any other error. *)
Inductive Exn : Type :=
| TimeoutError (stack : string)
| OtherError (stack : string).

Definition stack (e : Exn) : string :=
  match e with
  | TimeoutError s => s
  | OtherError s => s
  end.

Definition instanceofTimeoutError (e : Exn) : bool :=
  match e with
  | TimeoutError _ => true
  | OtherError _ => false
  end.

Inductive Outcome (A : Type) : Type :=
| Ok (a : A)
| Throw (e : Exn).
Arguments Ok {A} a.
Arguments Throw {A} e.

Definition andThen {A B : Type} (o : Outcome A) (f : A -> Outcome B) : Outcome B :=
  match o with
  | Ok a => f a
  | Throw e => Throw e
  end.

Definition resolved {A : Type} (o : Outcome A) : bool :=
  match o with
  | Ok _ => true
  | Throw _ => false
  end.

Inductive LogLevel : Type := LevelLog | LevelWarn | LevelError.

Inductive Call : Type :=
| UseStealthPlugin
| Launch (headless : string) (args : list string)
| BrowserOn (b : Browser) (event : string)
| BrowserClose (b : Browser)
| CreateBrowserContext (b : Browser)
| NewPage (c : BrowserContext)
| SetUserAgent (p : Page) (ua : string) (data : UserAgentData)
| SetViewport (p : Page) (width height : Z)
| EvaluateOnNewDocument (p : Page) (profile : Profile)
| SetRequestInterception (p : Page) (value : bool)
| PageOn (p : Page) (event : string)
| Goto (p : Page) (url : string) (waitUntil : string) (timeout : Z)
| RequestAbort (r : HTTPRequest) (errorCode : string)
| RequestContinue (r : HTTPRequest)
| PageContent (p : Page)
| PageClose (p : Page).

(** One entry per logger call and per Puppeteer call, in program order;
    [Invoked c ok] says the call was made and whether it completed. *)
Inductive Event : Type :=
| Logged (level : LogLevel) (message : string) (trace : option string)
| Invoked (c : Call) (completed : bool).

(** The outcomes a double supplies for the calls of one fetch. *)
Record Puppeteer : Type := {
  connected : Browser -> bool;                 (* browser.connected *)
  launch : Outcome Browser;                    (* puppeteer.launch(...) *)
  browserClose : Outcome unit;                 (* browser.close() *)
  createBrowserContext : Outcome BrowserContext;
  newPage : Outcome Page;
  setUserAgent : Outcome unit;
  setViewport : Outcome unit;
  evaluateOnNewDocument : Outcome unit;
  setRequestInterception : Outcome unit;
  requests : list HTTPRequest;                 (* issued while goto is pending *)
  goto : Outcome (option HTTPResponse);        (* null: no response *)
  content : Outcome string;                    (* page.content() *)
  pageUrl : option string;                     (* page.url(); None is the
                                                  nullish value ?? guards *)
  close : Outcome unit                         (* page.close() *)
}.

(** ** The service monad: [this.browser], exceptions and the trace *)

Record Run (A : Type) : Type := {
  result : Outcome A;
  browserAfter : option Browser;
  events : list Event
}.
Arguments result {A} r.
Arguments browserAfter {A} r.
Arguments events {A} r.

Definition M (A : Type) : Type := option Browser -> Run A.

Definition ret {A : Type} (a : A) : M A :=
  fun b => {| result := Ok a; browserAfter := b; events := [] |}.

Definition throw {A : Type} (e : Exn) : M A :=
  fun b => {| result := Throw e; browserAfter := b; events := [] |}.

Definition bind {A B : Type} (m : M A) (f : A -> M B) : M B :=
  fun b =>
    let r := m b in
    match result r with
    | Ok a =>
        let r' := f a (browserAfter r) in
        {| result := result r';
           browserAfter := browserAfter r';
           events := events r ++ events r' |}
    | Throw e =>
        {| result := Throw e; browserAfter := browserAfter r; events := events r |}
    end.

Notation "x <- m ;; k" := (bind m (fun x => k))
  (at level 61, m at next level, right associativity).
Notation "m ;; k" := (bind m (fun _ => k))
  (at level 61, right associativity).

Definition getThisBrowser : M (option Browser) :=
  fun b => {| result := Ok b; browserAfter := b; events := [] |}.

Definition setThisBrowser (v : option Browser) : M unit :=
  fun _ => {| result := Ok tt; browserAfter := v; events := [] |}.

Definition emit (ev : Event) : M unit :=
  fun b => {| result := Ok tt; browserAfter := b; events := [ev] |}.

Definition log (level : LogLevel) (message : string) : M unit :=
  emit (Logged level message None).

(** A call that cannot fail (a synchronous registration or getter). *)
Definition invoke (c : Call) : M unit := emit (Invoked c true).

(** [await c]: the call is recorded, then resolves or rejects. *)
Definition await {A : Type} (c : Call) (o : Outcome A) : M A :=
  fun b => {| result := o; browserAfter := b; events := [Invoked c (resolved o)] |}.

(** [try { body } catch (error) { handler } finally { cleanup }]: the
    cleanup runs on every exit; if it throws, its exception replaces the
    pending return value or exception. *)
Definition tryCatchFinally {A : Type}
           (body : M A) (handler : Exn -> M A) (cleanup : M unit) : M A :=
  fun b =>
    let r := body b in
    let r1 :=
      match result r with
      | Ok a => r
      | Throw e =>
          let h := handler e (browserAfter r) in
          {| result := result h;
             browserAfter := browserAfter h;
             events := events r ++ events h |}
      end in
    let c := cleanup (browserAfter r1) in
    {| result := match result c with
                 | Ok _ => result r1
                 | Throw e => Throw e
                 end;
       browserAfter := browserAfter c;
       events := events r1 ++ events c |}.

Fixpoint forEach {A : Type} (f : A -> M unit) (l : list A) : M unit :=
  match l with
  | [] => ret tt
  | x :: l' => f x ;; forEach f l'
  end.

(** ** UnblockerService *)

Section UnblockerService.

Variable pp : Puppeteer.

(** The observer registered on a new browser: [this.browser = null]. *)
Definition onDisconnected : M unit :=
  log LevelWarn "Browser has been disconnected." ;;
  setThisBrowser None.

Definition onModuleDestroy : M unit :=
  log LevelLog "Destroying module, closing browser..." ;;
  this_browser <- getThisBrowser ;;
  match this_browser with
  | Some b =>
      await (BrowserClose b) (browserClose pp) ;;
      setThisBrowser None
  | None => ret tt
  end.

(** [this.browser && this.browser.connected] *)
Definition activeBrowser (this_browser : option Browser) : option Browser :=
  match this_browser with
  | Some b => if connected pp b then Some b else None
  | None => None
  end.

Definition getBrowser : M Browser :=
  this_browser <- getThisBrowser ;;
  match activeBrowser this_browser with
  | Some b => ret b
  | None =>
      log LevelLog "No active browser found. Launching a new instance..." ;;
      invoke UseStealthPlugin ;;
      newBrowser <-
        await (Launch "new" ["--no-sandbox"; "--disable-setuid-sandbox";
                             "--disable-dev-shm-usage"])
              (launch pp) ;;
      invoke (BrowserOn newBrowser "disconnected") ;;
      setThisBrowser (Some newBrowser) ;;
      ret newBrowser
  end.

(** The listener of [page.on('request', ...)]. *)
Definition onRequest (request : HTTPRequest) : M unit :=
  let requestUrl := req_url request in
  if RegExp.test PXSCRIPT_PATTERN requestUrl then
    log LevelWarn ("Aborting PerimeterX init.js: " ++ requestUrl) ;;
    invoke (RequestAbort request "aborted")
  else if JsString.some (fun domain => JsString.includes requestUrl domain)
                        BLOCKED_TRACKING_DOMAINS then
    log LevelLog ("Aborting tracker: " ++ requestUrl) ;;
    invoke (RequestAbort request "aborted")
  else
    invoke (RequestContinue request).

(** [page.goto(url, ...)]: while it is pending the page issues its
    requests, each handed to the listener; then it resolves or rejects. *)
Definition pageGoto (page : Page) (url : string)
           (listener : HTTPRequest -> M unit) : M (option HTTPResponse) :=
  emit (Invoked (Goto page url PUPPETEER_LIFE_CYCLE_TYPE NETWORK_IDLE_TIMEOUT)
                (resolved (goto pp))) ;;
  forEach listener (requests pp) ;;
  fun b => {| result := goto pp; browserAfter := b; events := [] |}.

(** The body of the [try] block. *)
Definition fetchPage (page : Page) (url : string) : M PageContentResult :=
  await (SetUserAgent page (userAgent GAMER_PROFILE) (userAgentData GAMER_PROFILE))
        (setUserAgent pp) ;;
  await (SetViewport page (viewportWidth GAMER_PROFILE) (viewportHeight GAMER_PROFILE))
        (setViewport pp) ;;
  await (EvaluateOnNewDocument page GAMER_PROFILE) (evaluateOnNewDocument pp) ;;
  await (SetRequestInterception page true) (setRequestInterception pp) ;;
  invoke (PageOn page "request") ;;
  log LevelLog ("Accessing " ++ url ++ " with refined blocking enabled...") ;;
  response <- pageGoto page url onRequest ;;
  match response with
  | None =>
      ret {| html := None;
             status := HttpStatus.BAD_GATEWAY;
             error := Some "Navigation failed, no response received from the server.";
             finalUrl := pageUrl pp |}
  | Some response =>
      let status := resp_status response in
      html <- await (PageContent page) (content pp) ;;
      let finalUrl := pageUrl pp in
      if JsString.includes html "px-captcha" || (status =? 403) then
        log LevelError ("Captcha or block page detected at "
                        ++ JsString.ofNullable finalUrl
                        ++ " despite init.js blocking") ;;
        ret {| html := Some html;
               status := HttpStatus.FORBIDDEN;
               error := Some "Bot detection or captcha was triggered.";
               finalUrl := finalUrl |}
      else
        log LevelLog ("Page successfully loaded with status "
                      ++ JsString.ofNumber status ++ " from "
                      ++ JsString.ofNullable finalUrl) ;;
        ret {| html := Some html;
               status := status;
               error := None;
               finalUrl := finalUrl |}
  end.

(** The body of the [catch] block. *)
Definition onError (url : string) (error : Exn) : M PageContentResult :=
  emit (Logged LevelError ("An error occurred while processing " ++ url ++ ":")
               (Some (stack error))) ;;
  if instanceofTimeoutError error then
    ret {| html := None;
           status := HttpStatus.GATEWAY_TIMEOUT;
           error := Some ("Navigation timed out after "
                          ++ JsString.ofNumber (NETWORK_IDLE_TIMEOUT / 1000)
                          ++ "s. The target page is likely too slow or unresponsive.");
           finalUrl := Some (JsString.nullish (pageUrl pp) url) |}
  else
    ret {| html := None;
           status := HttpStatus.INTERNAL_SERVER_ERROR;
           error := Some "An unexpected internal error occurred during page processing. See service logs for details.";
           finalUrl := Some (JsString.nullish (pageUrl pp) url) |}.

Definition getPageContent (url : string) : M PageContentResult :=
  browser <- getBrowser ;;
  context <- await (CreateBrowserContext browser) (createBrowserContext pp) ;;
  page <- await (NewPage context) (newPage pp) ;;
  tryCatchFinally
    (fetchPage page url)
    (onError url)
    (await (PageClose page) (close pp)).

End UnblockerService.

(** ** Reading a trace *)

Definition isClose (ev : Event) : bool :=
  match ev with
  | Invoked (PageClose _) _ => true
  | _ => false
  end.

Definition isContextCreated (ev : Event) : bool :=
  match ev with
  | Invoked (CreateBrowserContext _) true => true
  | _ => false
  end.

Definition isPageCreated (ev : Event) : bool :=
  match ev with
  | Invoked (NewPage _) true => true
  | _ => false
  end.

Definition isLaunch (ev : Event) : bool :=
  match ev with
  | Invoked (Launch _ _) _ => true
  | _ => false
  end.

Definition count (p : Event -> bool) (t : list Event) : nat :=
  List.length (filter p t).

(** Calls of [page.close()]. *)
Definition closeCalls (t : list Event) : nat := count isClose t.

(** Browsing contexts that came into existence. *)
Definition contextsCreated (t : list Event) : nat := count isContextCreated t.

(** Pages that came into existence. *)
Definition pagesCreated (t : list Event) : nat := count isPageCreated t.

(** Calls of [puppeteer.launch]. *)
Definition launches (t : list Event) : nat := count isLaunch t.

Inductive InterceptAction : Type := Abort | Continue.

(** The calls of [request.abort] and [request.continue], in order. *)
Fixpoint interceptions (t : list Event) : list (HTTPRequest * InterceptAction) :=
  match t with
  | [] => []
  | Invoked (RequestAbort r _) _ :: t' => (r, Abort) :: interceptions t'
  | Invoked (RequestContinue r) _ :: t' => (r, Continue) :: interceptions t'
  | _ :: t' => interceptions t'
  end.

(** The three ordered rules of the request filter, as the specification
    words them: the init-script pattern, else a tracking domain, else
    allow. *)
Inductive Decision (url : string) : InterceptAction -> Prop :=
| AbortInitScript :
    RegExp.Found PXSCRIPT_PATTERN url ->
    Decision url Abort
| AbortTracker domain :
    ~ RegExp.Found PXSCRIPT_PATTERN url ->
    In domain BLOCKED_TRACKING_DOMAINS ->
    JsString.Substring domain url ->
    Decision url Abort
| Allow :
    ~ RegExp.Found PXSCRIPT_PATTERN url ->
    (forall domain, In domain BLOCKED_TRACKING_DOMAINS ->
                    ~ JsString.Substring domain url) ->
    Decision url Continue.

(** The page exists: acquisition, context creation and page creation all
    completed. *)
Definition pageOpens (pp : Puppeteer) (this_browser : option Browser) : bool :=
  resolved (result (getBrowser pp this_browser))
  && resolved (createBrowserContext pp)
  && resolved (newPage pp).

(** Every call of the [try] block before [page.goto] completed. *)
Definition setupCompletes (pp : Puppeteer) : bool :=
  resolved (setUserAgent pp)
  && resolved (setViewport pp)
  && resolved (evaluateOnNewDocument pp)
  && resolved (setRequestInterception pp).

(** ** Doubles *)

Definition documentRequest : HTTPRequest :=
  {| req_url := "https://example.test/ok";
     req_method := "GET";
     req_resourceType := "document" |}.

Definition initScriptRequest : HTTPRequest :=
  {| req_url := "https://example.test/AB12CD34/init.js";
     req_method := "GET";
     req_resourceType := "script" |}.

Definition trackerRequest : HTTPRequest :=
  {| req_url := "https://www.google-analytics.com/analytics.js";
     req_method := "GET";
     req_resourceType := "script" |}.

(** A double whose launch, context, page, navigation, serialization and
    close outcomes are given; a stored browser 7 is stale, the setup
    calls complete, and the page sits at the requested address. *)
Definition double (l : Outcome Browser) (c : Outcome BrowserContext)
           (p : Outcome Page) (g : Outcome (option HTTPResponse))
           (h : Outcome string) (cl : Outcome unit) : Puppeteer :=
  {| connected := fun b => negb (Nat.eqb b 7);
     launch := l;
     browserClose := Ok tt;
     createBrowserContext := c;
     newPage := p;
     setUserAgent := Ok tt;
     setViewport := Ok tt;
     evaluateOnNewDocument := Ok tt;
     setRequestInterception := Ok tt;
     requests := [documentRequest; initScriptRequest; trackerRequest];
     goto := g;
     content := h;
     pageUrl := Some "https://example.test/ok";
     close := cl |}.

Definition exampleUrl : string := "https://example.test/ok".

Definition launchFailure : Exn := OtherError "Error: Failed to launch the browser process!".
Definition pageFailure : Exn := OtherError "Error: Protocol error (Target.createTarget): Target closed".
Definition navigationTimeout : Exn := TimeoutError "TimeoutError: Navigation timeout of 60000 ms exceeded".

Definition serializationFailure : Exn :=
  OtherError "Error: Execution context was destroyed, most likely because of a navigation.".

(** The page loads with status 200 and an ordinary body. *)
Definition succeeds : Puppeteer :=
  double (Ok 1%nat) (Ok 2%nat) (Ok 3%nat)
         (Ok (Some {| resp_status := 200 |})) (Ok "<html>...</html>") (Ok tt).

(** No browser is stored or the stored one is stale, and the launch fails. *)
Definition launchFails : Puppeteer :=
  double (Throw launchFailure) (Ok 2%nat) (Ok 3%nat)
         (Ok (Some {| resp_status := 200 |})) (Ok "<html>...</html>") (Ok tt).

(** The context is created, then [context.newPage()] fails. *)
Definition newPageFails : Puppeteer :=
  double (Ok 1%nat) (Ok 2%nat) (Throw pageFailure)
         (Ok (Some {| resp_status := 200 |})) (Ok "<html>...</html>") (Ok tt).

(** The server answers 403 with a body that has no challenge marker. *)
Definition blocked : Puppeteer :=
  double (Ok 1%nat) (Ok 2%nat) (Ok 3%nat)
         (Ok (Some {| resp_status := 403 |})) (Ok "<html>Access denied</html>") (Ok tt).

(** Navigation resolves with no response. *)
Definition noResponse : Puppeteer :=
  double (Ok 1%nat) (Ok 2%nat) (Ok 3%nat)
         (Ok None) (Ok "<html>...</html>") (Ok tt).

(** Navigation exceeds the timeout. *)
Definition timesOut : Puppeteer :=
  double (Ok 1%nat) (Ok 2%nat) (Ok 3%nat)
         (Throw navigationTimeout) (Ok "<html>...</html>") (Ok tt).

(** The server answers 500 with an ordinary error page. *)
Definition serverError : Puppeteer :=
  double (Ok 1%nat) (Ok 2%nat) (Ok 3%nat)
         (Ok (Some {| resp_status := 500 |}))
         (Ok "<html>Internal Server Error</html>") (Ok tt).

(** Navigation yields a response, then [page.content()] fails. *)
Definition serializationFails : Puppeteer :=
  double (Ok 1%nat) (Ok 2%nat) (Ok 3%nat)
         (Ok (Some {| resp_status := 200 |})) (Throw serializationFailure) (Ok tt).

(** The init-script address asked for again, by another kind of request. *)
Definition initScriptBeacon : HTTPRequest :=
  {| req_url := "https://example.test/AB12CD34/init.js";
     req_method := "POST";
     req_resourceType := "xhr" |}.

(** What [serverError] comes back as. *)
Definition passedThrough500 : PageContentResult :=
  {| html := Some "<html>Internal Server Error</html>";
     status := 500;
     error := None;
     finalUrl := Some "https://example.test/ok" |}.

(** What [serializationFails] comes back as. *)
Definition internalError : PageContentResult :=
  {| html := None;
     status := 500;
     error := Some "An unexpected internal error occurred during page processing. See service logs for details.";
     finalUrl := Some "https://example.test/ok" |}.

(** A computation whose trace satisfies [Inv] from every state. *)
Definition Emits {A : Type} (Inv : list Event -> Prop) (m : M A) : Prop :=
  forall b, Inv (events (m b)).

(** No event of the trace satisfies [p]. *)
Definition Without (p : Event -> bool) (t : list Event) : Prop := count p t = 0%nat.

(** Every interception of the trace follows the ordered rules. *)
Definition Filtered (t : list Event) : Prop :=
  Forall (fun ra => Decision (req_url (fst ra)) (snd ra)) (interceptions t).

Definition isBrowserClose (ev : Event) : bool :=
  match ev with
  | Invoked (BrowserClose _) _ => true
  | _ => false
  end.

Definition isObserver (ev : Event) : bool :=
  match ev with
  | Invoked (BrowserOn _ _) _ => true
  | _ => false
  end.

Definition isGoto (ev : Event) : bool :=
  match ev with
  | Invoked (Goto _ _ _ _) _ => true
  | _ => false
  end.

(** Calls of [browser.close()]. *)
Definition browserCloses (t : list Event) : nat := count isBrowserClose t.

(** Disconnect observers registered. *)
Definition observers (t : list Event) : nat := count isObserver t.

(** Calls of [page.goto]. *)
Definition navigations (t : list Event) : nat := count isGoto t.



(** The calls the try block makes before navigation, all completed, then
    the navigation itself. *)
Definition navigationBlock (page : Page) (url : string) (navigated : bool)
  : list Event :=
  [ Invoked (SetUserAgent page (userAgent GAMER_PROFILE)
                          (userAgentData GAMER_PROFILE)) true;
    Invoked (SetViewport page 1920 1080) true;
    Invoked (EvaluateOnNewDocument page GAMER_PROFILE) true;
    Invoked (SetRequestInterception page true) true;
    Invoked (PageOn page "request") true;
    Logged LevelLog ("Accessing " ++ url ++ " with refined blocking enabled...") None;
    Invoked (Goto page url "networkidle2" 60000) navigated ].

(** Name resolution fails: navigation is rejected, not with a timeout. *)
Definition resolutionFailure : Exn :=
  OtherError "Error: net::ERR_NAME_NOT_RESOLVED at https://example.test/ok".

Definition resolutionFails : Puppeteer :=
  double (Ok 1%nat) (Ok 2%nat) (Ok 3%nat)
         (Throw resolutionFailure) (Ok "<html>...</html>") (Ok tt).

(** The page loads, then [page.close()] is rejected. *)
Definition closeFailure : Exn :=
  OtherError "Error: Protocol error (Target.closeTarget): Target closed".

Definition closeFails : Puppeteer :=
  double (Ok 1%nat) (Ok 2%nat) (Ok 3%nat)
         (Ok (Some {| resp_status := 200 |})) (Ok "<html>...</html>")
         (Throw closeFailure).

(** ** UnblockerController *)

Record UnblockRequestDto : Type := { dto_url : string; dto_render : bool }.

(** The calls the route handler makes on the Express response. *)
Inductive ResponseCall : Type :=
| SetHeader (name value : string)
| SetStatus (code : Z)
| Send (body : option string).

Record Handled : Type := {
  fetched : Run PageContentResult;    (* the run of getPageContent *)
  handlerOutcome : Outcome unit;      (* the handler's promise *)
  responseCalls : list ResponseCall
}.

(** [unblockWebsite(unblockRequestDto, res)]: only [html] and [status] are
    taken from the result. *)
Definition unblockWebsite (pp : Puppeteer) (unblockRequestDto : UnblockRequestDto)
           (this_browser : option Browser) : Handled :=
  let fetch := getPageContent pp (dto_url unblockRequestDto) this_browser in
  match result fetch with
  | Ok content =>
      let html := html content in
      let status := status content in
      {| fetched := fetch;
         handlerOutcome := Ok tt;
         responseCalls := [ SetHeader "Content-Type" "text/html";
                            SetStatus status;
                            Send html ] |}
  | Throw e =>
      {| fetched := fetch; handlerOutcome := Throw e; responseCalls := [] |}
  end.

(** ** The script installed by [page.evaluateOnNewDocument] *)

(** [s.split(sep)] for a separator of one character. *)
Fixpoint split (sep : ascii) (s : string) : list string :=
  match s with
  | EmptyString => [EmptyString]
  | String c s' =>
      if Ascii.eqb c sep then EmptyString :: split sep s'
      else match split sep s' with
           | piece :: rest => String c piece :: rest
           | [] => [String c EmptyString]
           end
  end.

Record ResolvedOptions : Type := {
  ro_locale : option string;          (* [0] of an array: may be undefined *)
  ro_timeZone : string;
  ro_calendar : string;
  ro_numberingSystem : string
}.

(** What page script reads once the overrides are in place. *)
Record NavigatorOverrides : Type := {
  nav_platform : string;
  nav_webdriver : bool;
  nav_language : string;
  nav_languages : list string;
  intl_resolvedOptions : ResolvedOptions
}.

Definition onNewDocument (profile : Profile) : NavigatorOverrides :=
  {| nav_platform := platform profile;
     nav_webdriver := false;
     nav_language := locale profile;
     nav_languages := [locale profile];
     intl_resolvedOptions :=
       {| ro_locale := hd_error (split "," (locale profile));
          ro_timeZone := timezone profile;
          ro_calendar := "gregory";
          ro_numberingSystem := "latn" |} |}.

(** Calls that create or close a context, a page or the browser. *)
Definition isLifecycle (ev : Event) : bool :=
  isContextCreated ev || isPageCreated ev || isClose ev || isBrowserClose ev.

(** A 403 answer whose serialization then fails. *)
Definition blockedUnserialized : Puppeteer :=
  double (Ok 1%nat) (Ok 2%nat) (Ok 3%nat)
         (Ok (Some {| resp_status := 403 |})) (Throw serializationFailure) (Ok tt).

(** A 403 answer, serialized, then [page.close()] is rejected. *)
Definition blockedCloseFails : Puppeteer :=
  double (Ok 1%nat) (Ok 2%nat) (Ok 3%nat)
         (Ok (Some {| resp_status := 403 |})) (Ok "<html>Access denied</html>")
         (Throw closeFailure).

(** No response, then [page.close()] is rejected. *)
Definition noResponseCloseFails : Puppeteer :=
  double (Ok 1%nat) (Ok 2%nat) (Ok 3%nat)
         (Ok None) (Ok "<html>...</html>") (Throw closeFailure).


(** * Properties *)

(** ** Strings *)

Lemma append_assoc (a b c : string) : (a ++ b) ++ c = a ++ b ++ c.
Proof.
  induction a as [|x a IH]; simpl; [reflexivity | now rewrite IH].
Qed.

Lemma append_empty_r (s : string) : s ++ "" = s.
Proof.
  induction s as [|x s IH]; simpl; [reflexivity | now rewrite IH].
Qed.

Lemma length_append (a b : string) :
  String.length (a ++ b) = (String.length a + String.length b)%nat.
Proof.
  induction a as [|x a IH]; simpl; [reflexivity | now rewrite IH].
Qed.

Lemma startsWith_spec (s sub : string) :
  JsString.startsWith s sub = true <-> exists post, s = sub ++ post.
Proof.
  revert s; induction sub as [|c sub IH]; intros s; simpl.
  - split; [intros _; now exists s | reflexivity].
  - destruct s as [|d s].
    + split; [discriminate | intros [post H]; discriminate].
    + rewrite andb_true_iff, Ascii.eqb_eq, IH. split.
      * intros [-> [post ->]]. now exists post.
      * intros [post H]. injection H as -> ->. split; [reflexivity | now exists post].
Qed.

Lemma includes_spec (s sub : string) :
  JsString.includes s sub = true <-> JsString.Substring sub s.
Proof.
  unfold JsString.Substring.
  induction s as [|d s IH]; simpl; rewrite orb_true_iff, startsWith_spec.
  - split.
    + intros [[post H] | H]; [|discriminate]. now exists "", post.
    + intros [pre [post H]]. left.
      destruct pre; simpl in H; [now exists post | discriminate].
  - rewrite IH. split.
    + intros [[post H] | [pre [post H]]].
      * now exists "", post.
      * exists (String d pre), post. simpl. now rewrite H.
    + intros [pre [post H]]. destruct pre as [|x pre]; simpl in H.
      * left. now exists post.
      * right. injection H as _ H. now exists pre, post.
Qed.

(** ** The matcher finds exactly what the pattern denotes *)

Lemma Matches_nonempty ic r s :
  RegExp.Matches ic r s -> (1 <= String.length s)%nat.
Proof.
  induction 1; simpl; try rewrite length_append; lia.
Qed.

Section Repetition.

Variable body : string -> (string -> bool) -> bool.
Variable ic : bool.
Variable a : RegExp.Node.

Hypothesis body_spec : forall s k,
  body s k = true <-> exists s1 s2, s = s1 ++ s2 /\ RegExp.Matches ic a s1 /\ k s2 = true.

Lemma iterate_sound k fuel : forall s,
  RegExp.iterate body k fuel s = true ->
  exists s1 s2, s = s1 ++ s2 /\ RegExp.Matches ic (RegExp.Plus a) s1 /\ k s2 = true.
Proof.
  induction fuel as [|fuel IH]; intros s H; simpl in H;
    apply body_spec in H; destruct H as (s1 & s2 & -> & Ha & Hk).
  - exists s1, s2. repeat split; [now apply RegExp.MPlusOne | assumption].
  - apply orb_true_iff in Hk. destruct Hk as [Hk | Hk].
    + destruct (IH _ Hk) as (t1 & t2 & -> & Hp & Hk').
      exists (s1 ++ t1), t2. rewrite append_assoc.
      repeat split; [now apply RegExp.MPlusMore | assumption].
    + exists s1, s2. repeat split; [now apply RegExp.MPlusOne | assumption].
Qed.

Lemma iterate_complete k fuel : forall s s1 s2,
  (String.length s <= fuel)%nat ->
  s = s1 ++ s2 -> RegExp.Matches ic (RegExp.Plus a) s1 -> k s2 = true ->
  RegExp.iterate body k fuel s = true.
Proof.
  induction fuel as [|fuel IH]; intros s s1 s2 Hlen -> Hp Hk.
  - apply Matches_nonempty in Hp. rewrite length_append in Hlen. lia.
  - simpl. apply body_spec. inversion Hp as [| | | a' s' Ha | a' t1 t2 Ha Hp']; subst.
    + exists s1, s2. repeat split; try assumption. now rewrite Hk, orb_true_r.
    + exists t1, (t2 ++ s2). rewrite append_assoc. repeat split; try assumption.
      apply orb_true_iff. left. apply (IH _ t2 s2); try assumption; try reflexivity.
      apply Matches_nonempty in Ha.
      rewrite append_assoc, length_append in Hlen. lia.
Qed.

End Repetition.

Lemma run_spec ic r : forall s k,
  RegExp.run ic r s k = true <->
  exists s1 s2, s = s1 ++ s2 /\ RegExp.Matches ic r s1 /\ k s2 = true.
Proof.
  induction r as [c | items | a IHa b IHb | a IHa]; intros s k; simpl.
  - destruct s as [|ch s].
    + split; [discriminate | intros (s1 & s2 & H & Hm & _)].
      inversion Hm; subst; discriminate.
    + rewrite andb_true_iff. split.
      * intros [Hc Hk]. exists (String ch ""), s.
        repeat split; [now constructor | assumption].
      * intros (s1 & s2 & H & Hm & Hk). inversion Hm; subst.
        simpl in H. injection H as -> ->. now split.
  - destruct s as [|ch s].
    + split; [discriminate | intros (s1 & s2 & H & Hm & _)].
      inversion Hm; subst; discriminate.
    + rewrite andb_true_iff. split.
      * intros [Hc Hk]. exists (String ch ""), s.
        repeat split; [now constructor | assumption].
      * intros (s1 & s2 & H & Hm & Hk). inversion Hm; subst.
        simpl in H. injection H as -> ->. now split.
  - rewrite IHa. split.
    + intros (s1 & s2 & -> & Ha & Hb). apply IHb in Hb.
      destruct Hb as (t1 & t2 & -> & Hb & Hk).
      exists (s1 ++ t1), t2. rewrite append_assoc.
      repeat split; [now constructor | assumption].
    + intros (s1 & s2 & -> & Hm & Hk). inversion Hm; subst.
      rewrite append_assoc. do 2 eexists. repeat split; [eassumption|].
      apply IHb. now do 2 eexists.
  - split.
    + now apply iterate_sound.
    + intros (s1 & s2 & H & Hm & Hk).
      now apply (iterate_complete _ ic a IHa k _ s s1 s2).
Qed.

Lemma search_spec ic r s :
  RegExp.search ic r s = true <->
  exists pre mid post, s = pre ++ mid ++ post /\ RegExp.Matches ic r mid.
Proof.
  induction s as [|d s IH]; simpl; rewrite orb_true_iff, run_spec.
  - split.
    + intros [(s1 & s2 & H & Hm & _) | H]; [|discriminate]. now exists "", s1, s2.
    + intros (pre & mid & post & H & Hm). left.
      destruct pre; simpl in H; [now exists mid, post | discriminate].
  - rewrite IH. split.
    + intros [(s1 & s2 & H & Hm & _) | (pre & mid & post & H & Hm)].
      * now exists "", s1, s2.
      * exists (String d pre), mid, post. simpl. now rewrite H.
    + intros (pre & mid & post & H & Hm). destruct pre as [|x pre]; simpl in H.
      * left. now exists mid, post.
      * right. injection H as _ H. now exists pre, mid, post.
Qed.

Lemma test_spec re s : RegExp.test re s = true <-> RegExp.Found re s.
Proof. apply search_spec. Qed.

(** ** What [PXSCRIPT_PATTERN] denotes *)

Lemma Matches_Lit ic c s :
  RegExp.Matches ic (RegExp.Lit c) s <->
  exists ch, s = String ch "" /\ RegExp.litMatches ic c ch = true.
Proof.
  split.
  - intros H. inversion H; subst. eauto.
  - intros (ch & -> & H). now constructor.
Qed.

Lemma Matches_Seq ic a b s :
  RegExp.Matches ic (RegExp.Seq a b) s <->
  exists s1 s2, s = s1 ++ s2 /\ RegExp.Matches ic a s1 /\ RegExp.Matches ic b s2.
Proof.
  split.
  - intros H. inversion H; subst. eauto.
  - intros (s1 & s2 & -> & H1 & H2). now constructor.
Qed.

Lemma Matches_Plus_Class ic items s :
  RegExp.Matches ic (RegExp.Plus (RegExp.Class items)) s <->
  s <> "" /\ allChars (RegExp.classMatches ic items) s = true.
Proof.
  split.
  - intros H. remember (RegExp.Plus (RegExp.Class items)) as r eqn:Er.
    induction H as [| | | a s Ha _ | a s1 s2 Ha _ Hp IH]; try discriminate;
      injection Er as ->.
    + inversion Ha; subst. split; [discriminate|]. simpl.
      now rewrite andb_true_r.
    + inversion Ha; subst. destruct (IH eq_refl) as [_ IH'].
      split; [discriminate|]. simpl. now apply andb_true_iff.
  - intros [Hne Hall]. induction s as [|ch s IH]; [contradiction|].
    simpl in Hall. apply andb_true_iff in Hall. destruct Hall as [Hc Hall].
    destruct s as [|ch' s].
    + apply RegExp.MPlusOne. now constructor.
    + change (String ch (String ch' s)) with (String ch "" ++ String ch' s).
      apply RegExp.MPlusMore; [now constructor|].
      apply IH; [discriminate | assumption].
Qed.

Lemma sameText_cons ic c w ch s :
  sameText ic (String c w) (String ch s)
  = RegExp.litMatches ic c ch && sameText ic w s.
Proof. reflexivity. Qed.

Lemma Matches_lits ic rest : forall c s,
  RegExp.Matches ic (RegExp.seqs (RegExp.Lit c) (RegExp.lits rest)) s <->
  sameText ic (String c rest) s = true.
Proof.
  induction rest as [|c' rest IH]; intros c s; simpl.
  - rewrite Matches_Lit. split.
    + intros (ch & -> & H). now rewrite H.
    + destruct s as [|ch [|? ?]]; try discriminate.
      * rewrite andb_true_r. eauto.
      * rewrite andb_false_r. discriminate.
  - rewrite Matches_Seq. split.
    + intros (s1 & s2 & -> & H1 & H2). apply Matches_Lit in H1.
      destruct H1 as (ch & -> & Hc). apply IH in H2. simpl in *.
      now rewrite Hc.
    + destruct s as [|ch s]; [discriminate|].
      intros H. apply andb_true_iff in H. destruct H as [Hc Hs].
      exists (String ch ""), s. repeat split.
      * apply Matches_Lit. eauto.
      * now apply IH.
Qed.

Lemma sameText_upper w : forall s,
  sameText true w s = true <-> upper s = upper w.
Proof.
  induction w as [|c w IH]; intros [|ch s]; simpl; try (split; discriminate).
  - split; reflexivity.
  - unfold RegExp.litMatches at 1. cbn [RegExp.canonicalize].
    rewrite andb_true_iff, Ascii.eqb_eq, IH. split.
    + intros [-> ->]. reflexivity.
    + intros H. injection H as -> ->. now split.
Qed.

Lemma class_is_alnum ch :
  RegExp.classMatches true [RegExp.Range "A" "Z"; RegExp.Range "0" "9"] ch
  = isAlnum ch.
Proof.
  destruct ch as [[] [] [] [] [] [] [] []]; vm_compute; reflexivity.
Qed.

Lemma allChars_ext p q s : (forall ch, p ch = q ch) -> allChars p s = allChars q s.
Proof. intros H. induction s as [|ch s IH]; simpl; [reflexivity | now rewrite H, IH]. Qed.

Lemma PXSCRIPT_PATTERN_denotes mid :
  RegExp.Matches true (RegExp.source PXSCRIPT_PATTERN) mid <-> InitScriptPath mid.
Proof.
  unfold InitScriptPath.
  change (RegExp.source PXSCRIPT_PATTERN) with
    (RegExp.Seq (RegExp.Lit "/")
       (RegExp.Seq (RegExp.Plus (RegExp.Class [RegExp.Range "A" "Z"; RegExp.Range "0" "9"]))
          (RegExp.seqs (RegExp.Lit "/") (RegExp.lits "init.js")))).
  rewrite Matches_Seq. split.
  - intros (s1 & s2 & -> & H1 & H2).
    apply Matches_Lit in H1. destruct H1 as (ch & -> & Hc).
    apply Matches_Seq in H2. destruct H2 as (run & t & -> & Hr & Ht).
    apply Matches_Plus_Class in Hr. destruct Hr as [Hne Hall].
    apply Matches_lits in Ht. destruct t as [|sl tail]; [discriminate|].
    rewrite sameText_cons in Ht.
    apply andb_true_iff in Ht. destruct Ht as [Hsl Ht].
    apply sameText_upper in Ht.
    assert (ch = "/"%char).
    { destruct ch as [[] [] [] [] [] [] [] []]; try discriminate; reflexivity. }
    assert (sl = "/"%char).
    { destruct sl as [[] [] [] [] [] [] [] []]; try discriminate; reflexivity. }
    subst. exists run, tail. repeat split; try assumption.
    now rewrite (allChars_ext _ isAlnum run class_is_alnum) in Hall.
  - intros (run & tail & -> & Hne & Hall & Ht).
    exists "/", (run ++ "/" ++ tail). repeat split.
    + apply Matches_Lit. eauto.
    + apply Matches_Seq. exists run, ("/" ++ tail). repeat split.
      * apply Matches_Plus_Class. split; [assumption|].
        now rewrite (allChars_ext _ isAlnum run class_is_alnum).
      * apply Matches_lits. change ("/" ++ tail) with (String "/" tail).
        rewrite sameText_cons. apply andb_true_iff.
        split; [reflexivity | now apply sameText_upper].
Qed.

Lemma PXSCRIPT_PATTERN_found url :
  RegExp.Found PXSCRIPT_PATTERN url <->
  exists pre mid post, url = pre ++ mid ++ post /\ InitScriptPath mid.
Proof.
  unfold RegExp.Found. cbn [RegExp.ignoreCase PXSCRIPT_PATTERN].
  split; intros (pre & mid & post & H & Hm); exists pre, mid, post;
    (split; [assumption|]); now apply PXSCRIPT_PATTERN_denotes.
Qed.

(** ** Projections of the monad's combinators *)

Lemma result_bind {A B : Type} (m : M A) (f : A -> M B) b :
  result (bind m f b) =
  match result (m b) with
  | Ok a => result (f a (browserAfter (m b)))
  | Throw e => Throw e
  end.
Proof. unfold bind. now destruct (result (m b)). Qed.

Lemma events_bind {A B : Type} (m : M A) (f : A -> M B) b :
  events (bind m f b) =
  match result (m b) with
  | Ok a => (events (m b) ++ events (f a (browserAfter (m b))))%list
  | Throw e => events (m b)
  end.
Proof. unfold bind. now destruct (result (m b)). Qed.

Lemma browserAfter_bind {A B : Type} (m : M A) (f : A -> M B) b :
  browserAfter (bind m f b) =
  match result (m b) with
  | Ok a => browserAfter (f a (browserAfter (m b)))
  | Throw e => browserAfter (m b)
  end.
Proof. unfold bind. now destruct (result (m b)). Qed.

(** ** Trace invariants, by the structure of the program *)

Section TraceInvariant.

Variable Inv : list Event -> Prop.
Hypothesis Inv_nil : Inv [].
Hypothesis Inv_app : forall t1 t2, Inv t1 -> Inv t2 -> Inv (t1 ++ t2)%list.

Lemma emits_ret {A : Type} (a : A) : Emits Inv (ret a).
Proof. intros b. exact Inv_nil. Qed.

Lemma emits_getThisBrowser : Emits Inv getThisBrowser.
Proof. intros b. exact Inv_nil. Qed.

Lemma emits_setThisBrowser v : Emits Inv (setThisBrowser v).
Proof. intros b. exact Inv_nil. Qed.

Lemma emits_emit ev : Inv [ev] -> Emits Inv (emit ev).
Proof. intros H b. exact H. Qed.

Lemma emits_await {A : Type} c (o : Outcome A) :
  Inv [Invoked c (resolved o)] -> Emits Inv (await c o).
Proof. intros H b. exact H. Qed.

Lemma emits_bind {A B : Type} (m : M A) (f : A -> M B) :
  Emits Inv m -> (forall a, Emits Inv (f a)) -> Emits Inv (bind m f).
Proof.
  intros Hm Hf b. rewrite events_bind.
  destruct (result (m b)); [apply Inv_app; [apply Hm | apply Hf] | apply Hm].
Qed.

Lemma emits_forEach {A : Type} (f : A -> M unit) l :
  (forall x, Emits Inv (f x)) -> Emits Inv (forEach f l).
Proof.
  intros Hf. induction l as [|x l IH]; simpl.
  - apply emits_ret.
  - apply emits_bind; [apply Hf | intros _; exact IH].
Qed.

Lemma emits_tryCatchFinally {A : Type} (body : M A) handler cleanup :
  Emits Inv body -> (forall e, Emits Inv (handler e)) -> Emits Inv cleanup ->
  Emits Inv (tryCatchFinally body handler cleanup).
Proof.
  intros Hb Hh Hc b. unfold tryCatchFinally. cbn [events].
  apply Inv_app; [|apply Hc].
  destruct (result (body b)); cbn [events]; [apply Hb|].
  apply Inv_app; [apply Hb | apply Hh].
Qed.

(** What the invariant must grant about single events. *)
Hypothesis Inv_logged : forall level message trace, Inv [Logged level message trace].
Hypothesis Inv_invoked : forall c ok,
  match c with
  | RequestAbort _ _ | RequestContinue _ => True
  | CreateBrowserContext _ | NewPage _ | PageClose _ => True
  | _ => Inv [Invoked c ok]
  end.
Hypothesis Inv_onRequest : forall request, Emits Inv (onRequest request).

Lemma emits_log level message : Emits Inv (log level message).
Proof. apply emits_emit, Inv_logged. Qed.

Lemma emits_getBrowser pp : Emits Inv (getBrowser pp).
Proof.
  unfold getBrowser. apply emits_bind; [apply emits_getThisBrowser|].
  intros stored. destruct (activeBrowser pp stored); [apply emits_ret|].
  repeat (apply emits_bind; [|intros]);
    try apply emits_log; try apply emits_ret; try apply emits_setThisBrowser.
  - apply emits_emit, (Inv_invoked UseStealthPlugin).
  - apply emits_await, (Inv_invoked (Launch _ _)).
  - apply emits_emit, (Inv_invoked (BrowserOn _ _)).
Qed.

Lemma emits_fetchPage pp page url : Emits Inv (fetchPage pp page url).
Proof.
  unfold fetchPage, pageGoto.
  repeat (apply emits_bind; [|intros]); try apply emits_log.
  - apply emits_await, (Inv_invoked (SetUserAgent _ _ _)).
  - apply emits_await, (Inv_invoked (SetViewport _ _ _)).
  - apply emits_await, (Inv_invoked (EvaluateOnNewDocument _ _)).
  - apply emits_await, (Inv_invoked (SetRequestInterception _ _)).
  - apply emits_emit, (Inv_invoked (PageOn _ _)).
  - apply emits_emit, (Inv_invoked (Goto _ _ _ _)).
  - apply emits_forEach, Inv_onRequest.
  - intros b. exact Inv_nil.
  - match goal with r : option HTTPResponse |- _ => destruct r end;
      [|apply emits_ret].
    apply emits_bind; [apply emits_await, (Inv_invoked (PageContent _))|].
    intros serialized. destruct (_ || _)%bool;
      (apply emits_bind; [apply emits_log | intros; apply emits_ret]).
Qed.

Lemma emits_onError pp url e : Emits Inv (onError pp url e).
Proof.
  unfold onError. apply emits_bind; [apply emits_emit, Inv_logged|].
  intros _. destruct (instanceofTimeoutError e); apply emits_ret.
Qed.

Lemma emits_getPageContent pp url :
  (forall b ok, Inv [Invoked (CreateBrowserContext b) ok]) ->
  (forall c ok, Inv [Invoked (NewPage c) ok]) ->
  (forall p ok, Inv [Invoked (PageClose p) ok]) ->
  Emits Inv (getPageContent pp url).
Proof.
  intros Hc Hp Hx. unfold getPageContent.
  apply emits_bind; [apply emits_getBrowser | intros browser].
  apply emits_bind; [apply emits_await, Hc | intros context].
  apply emits_bind; [apply emits_await, Hp | intros page].
  apply emits_tryCatchFinally.
  - apply emits_fetchPage.
  - intros e. apply emits_onError.
  - apply emits_await, Hx.
Qed.

End TraceInvariant.

(** ** The request filter *)

Lemma some_includes_spec url l :
  JsString.some (fun domain => JsString.includes url domain) l = true <->
  exists domain, In domain l /\ JsString.Substring domain url.
Proof.
  unfold JsString.some. rewrite existsb_exists.
  split; intros [d [Hin H]]; exists d; (split; [assumption|]);
    now apply includes_spec.
Qed.

Lemma onRequest_decides request b :
  exists a,
    interceptions (events (onRequest request b)) = [(request, a)]
    /\ Decision (req_url request) a.
Proof.
  unfold onRequest.
  destruct (RegExp.test PXSCRIPT_PATTERN (req_url request)) eqn:Ht.
  - exists Abort. split; [reflexivity|].
    now apply AbortInitScript, test_spec.
  - assert (Hn : ~ RegExp.Found PXSCRIPT_PATTERN (req_url request)).
    { intros H. apply test_spec in H. congruence. }
    destruct (JsString.some _ BLOCKED_TRACKING_DOMAINS) eqn:Hs.
    + exists Abort. split; [reflexivity|].
      apply some_includes_spec in Hs. destruct Hs as [d [Hin Hd]].
      now apply (AbortTracker _ d).
    + exists Continue. split; [reflexivity|].
      apply Allow; [assumption|]. intros d Hin Hd.
      assert (JsString.some (fun domain => JsString.includes (req_url request) domain)
                BLOCKED_TRACKING_DOMAINS = true) by (apply some_includes_spec; eauto).
      congruence.
Qed.

Lemma onRequest_completes request b :
  result (onRequest request b) = Ok tt /\ browserAfter (onRequest request b) = b.
Proof.
  unfold onRequest. destruct (RegExp.test _ _); [now split|].
  destruct (JsString.some _ _); now split.
Qed.

Lemma forEach_onRequest_completes l b :
  result (forEach onRequest l b) = Ok tt
  /\ browserAfter (forEach onRequest l b) = b.
Proof.
  revert b; induction l as [|r l IH]; intros b; simpl; [now split|].
  rewrite result_bind, browserAfter_bind.
  destruct (onRequest_completes r b) as [-> ->]. apply IH.
Qed.

Lemma Decision_functional url a a' :
  Decision url a -> Decision url a' -> a = a'.
Proof.
  intros H H'. destruct H as [Hf | d Hn Hin Hd | Hn Hall];
    destruct H' as [Hf' | d' Hn' Hin' Hd' | Hn' Hall'];
    try reflexivity; try contradiction.
  - now apply Hall' in Hd.
  - now apply Hall in Hd'.
Qed.

Lemma interceptions_app t1 t2 :
  interceptions (t1 ++ t2) = (interceptions t1 ++ interceptions t2)%list.
Proof.
  induction t1 as [|ev t1 IH]; simpl; [reflexivity|].
  destruct ev as [| [] ?]; simpl; now rewrite ?IH.
Qed.

Lemma Filtered_app t1 t2 : Filtered t1 -> Filtered t2 -> Filtered (t1 ++ t2).
Proof.
  unfold Filtered. intros H1 H2. rewrite interceptions_app.
  apply Forall_app. now split.
Qed.

Lemma onRequest_filtered request : Emits Filtered (onRequest request).
Proof.
  intros b. unfold Filtered.
  destruct (onRequest_decides request b) as [a [-> Ha]].
  now constructor.
Qed.

Lemma getPageContent_filtered pp url : Emits Filtered (getPageContent pp url).
Proof.
  apply emits_getPageContent; try (intros; now constructor).
  - exact Filtered_app.
  - intros [] ok; try exact I; now constructor.
  - exact onRequest_filtered.
Qed.

(** C6: every intercepted request is settled by the ordered rules of the
    filter.  The listener, run on any request from any state, makes exactly
    one interception call, and its action is the one the rules give: abort
    when the address has a match of the init-script pattern; otherwise
    abort when it contains one of the tracking domains; otherwise continue,
    with no override.  Every interception made in the course of a fetch
    obeys the same rules. *)
Theorem interception_follows_ordered_rules pp url b0 request b :
  (exists a,
      interceptions (events (onRequest request b)) = [(request, a)]
      /\ Decision (req_url request) a)
  /\ Filtered (events (getPageContent pp url b0)).
Proof.
  split; [apply onRequest_decides | apply getPageContent_filtered].
Qed.

(** C10: the decision is a function of the request address alone.  For two
    requests with the same address, whatever their method or resource type
    and whatever the state of the service, the listener takes exactly one
    action each time and it is the same action. *)
Theorem interception_depends_on_url_only r1 r2 b1 b2 :
  req_url r1 = req_url r2 ->
  exists a,
    interceptions (events (onRequest r1 b1)) = [(r1, a)]
    /\ interceptions (events (onRequest r2 b2)) = [(r2, a)].
Proof.
  intros Hurl.
  destruct (onRequest_decides r1 b1) as [a1 [H1 D1]].
  destruct (onRequest_decides r2 b2) as [a2 [H2 D2]].
  rewrite <- Hurl in D2.
  rewrite (Decision_functional _ _ _ D2 D1) in H2.
  now exists a1.
Qed.

Lemma interception_depends_on_url_only_witness :
  req_url initScriptRequest = req_url initScriptBeacon
  /\ exists a,
       interceptions (events (onRequest initScriptRequest None))
       = [(initScriptRequest, a)]
       /\ interceptions (events (onRequest initScriptBeacon (Some 4%nat)))
          = [(initScriptBeacon, a)].
Proof.
  split; [reflexivity|].
  apply (interception_depends_on_url_only
           initScriptRequest initScriptBeacon None (Some 4%nat)).
  reflexivity.
Defined.

(** ** The shape of a fetch *)

Lemma getPageContent_unfold pp url b0 :
  getPageContent pp url b0 =
  let g := getBrowser pp b0 in
  match result g with
  | Throw e => {| result := Throw e; browserAfter := browserAfter g; events := events g |}
  | Ok browser =>
      match createBrowserContext pp with
      | Throw e =>
          {| result := Throw e; browserAfter := browserAfter g;
             events := events g ++ [Invoked (CreateBrowserContext browser) false] |}
      | Ok context =>
          match newPage pp with
          | Throw e =>
              {| result := Throw e; browserAfter := browserAfter g;
                 events := events g ++ [Invoked (CreateBrowserContext browser) true]
                                    ++ [Invoked (NewPage context) false] |}
          | Ok page =>
              let t := tryCatchFinally (fetchPage pp page url) (onError pp url)
                         (await (PageClose page) (close pp)) (browserAfter g) in
              {| result := result t; browserAfter := browserAfter t;
                 events := events g ++ [Invoked (CreateBrowserContext browser) true]
                                    ++ [Invoked (NewPage context) true] ++ events t |}
          end
      end
  end.
Proof.
  unfold getPageContent. remember (getBrowser pp) as g. unfold bind. cbn zeta.
  destruct (result (g b0)); [|reflexivity].
  unfold await; cbn [result browserAfter events].
  destruct (createBrowserContext pp); [|reflexivity]. cbn [resolved].
  destruct (newPage pp); reflexivity.
Qed.

Lemma guarded_result {A} (body : M A) handler c (o : Outcome unit) b :
  result (tryCatchFinally body handler (await c o) b) =
  match o with
  | Throw e => Throw e
  | Ok _ =>
      match result (body b) with
      | Ok a => Ok a
      | Throw e => result (handler e (browserAfter (body b)))
      end
  end.
Proof.
  unfold tryCatchFinally, await. cbn [result].
  destruct o; [|reflexivity]. now destruct (result (body b)) eqn:E.
Qed.

Lemma guarded_events {A} (body : M A) handler c (o : Outcome unit) b :
  events (tryCatchFinally body handler (await c o) b) =
  (match result (body b) with
   | Ok _ => events (body b)
   | Throw e => events (body b) ++ events (handler e (browserAfter (body b)))
   end ++ [Invoked c (resolved o)])%list.
Proof.
  unfold tryCatchFinally, await. cbn [events].
  now destruct (result (body b)).
Qed.

Lemma fetchPage_result pp page url b :
  result (fetchPage pp page url b) =
  andThen (setUserAgent pp) (fun _ =>
  andThen (setViewport pp) (fun _ =>
  andThen (evaluateOnNewDocument pp) (fun _ =>
  andThen (setRequestInterception pp) (fun _ =>
  andThen (goto pp) (fun response =>
  match response with
  | None =>
      Ok {| html := None;
            status := 502;
            error := Some "Navigation failed, no response received from the server.";
            finalUrl := pageUrl pp |}
  | Some response =>
      andThen (content pp) (fun h =>
      Ok (if JsString.includes h "px-captcha" || (resp_status response =? 403)
          then {| html := Some h;
                  status := 403;
                  error := Some "Bot detection or captcha was triggered.";
                  finalUrl := pageUrl pp |}
          else {| html := Some h;
                  status := resp_status response;
                  error := None;
                  finalUrl := pageUrl pp |}))
  end))))).
Proof.
  unfold fetchPage, pageGoto.
  repeat (rewrite result_bind; cbn [result browserAfter await invoke emit log]).
  destruct (setUserAgent pp); [|reflexivity].
  destruct (setViewport pp); [|reflexivity].
  destruct (evaluateOnNewDocument pp); [|reflexivity].
  destruct (setRequestInterception pp); [|reflexivity].
  destruct (forEach_onRequest_completes (requests pp) b) as [-> _].
  cbn [andThen].
  destruct (goto pp) as [[response|]|]; try reflexivity.
  rewrite result_bind. cbn [result await andThen].
  destruct (content pp) as [h|]; [|reflexivity].
  cbn [andThen]. destruct (_ || _)%bool; rewrite result_bind; reflexivity.
Qed.

Lemma onError_result pp url e b :
  result (onError pp url e b) =
  Ok (if instanceofTimeoutError e
      then {| html := None;
              status := 504;
              error := Some "Navigation timed out after 60s. The target page is likely too slow or unresponsive.";
              finalUrl := Some (JsString.nullish (pageUrl pp) url) |}
      else {| html := None;
              status := 500;
              error := Some "An unexpected internal error occurred during page processing. See service logs for details.";
              finalUrl := Some (JsString.nullish (pageUrl pp) url) |}).
Proof.
  unfold onError. rewrite result_bind. cbn [result emit].
  destruct (instanceofTimeoutError e); reflexivity.
Qed.

(** ** Events a fetch never produces outside their place *)

Lemma count_app p t1 t2 : count p (t1 ++ t2) = (count p t1 + count p t2)%nat.
Proof. unfold count. now rewrite filter_app, length_app. Qed.

Section Quiet.

Variable p : Event -> bool.
Hypothesis p_logged : forall level message trace, p (Logged level message trace) = false.
Hypothesis p_invoked : forall c ok,
  match c with
  | CreateBrowserContext _ | NewPage _ | PageClose _ => True
  | _ => p (Invoked c ok) = false
  end.

Lemma without_single ev : p ev = false -> Without p [ev].
Proof. intros H. unfold Without, count. simpl. now rewrite H. Qed.

Lemma without_app t1 t2 : Without p t1 -> Without p t2 -> Without p (t1 ++ t2).
Proof. unfold Without. intros H1 H2. rewrite count_app. lia. Qed.

Lemma without_invoked c ok :
  match c with
  | RequestAbort _ _ | RequestContinue _ => True
  | CreateBrowserContext _ | NewPage _ | PageClose _ => True
  | _ => Without p [Invoked c ok]
  end.
Proof.
  pose proof (p_invoked c ok) as H.
  destruct c; try exact I; now apply without_single.
Qed.

Lemma without_onRequest request : Emits (Without p) (onRequest request).
Proof.
  intros b. unfold onRequest.
  pose proof (p_invoked (RequestAbort request "aborted") true) as Ha.
  pose proof (p_invoked (RequestContinue request) true) as Hc.
  cbv beta iota in Ha, Hc.
  destruct (RegExp.test _ _); [|destruct (JsString.some _ _)];
    unfold Without, count; simpl; rewrite ?p_logged, ?Ha, ?Hc; reflexivity.
Qed.

Lemma getBrowser_without pp : Emits (Without p) (getBrowser pp).
Proof.
  apply emits_getBrowser;
    [reflexivity | exact without_app | | exact without_invoked].
  intros. now apply without_single.
Qed.

Lemma fetchPage_without pp page url : Emits (Without p) (fetchPage pp page url).
Proof.
  apply emits_fetchPage;
    [reflexivity | exact without_app | | exact without_invoked
     | exact without_onRequest].
  intros. now apply without_single.
Qed.

Lemma onError_without pp url e : Emits (Without p) (onError pp url e).
Proof.
  apply emits_onError; [reflexivity | exact without_app |].
  intros. now apply without_single.
Qed.

End Quiet.

(** ** Results and traces of a fetch *)

Lemma resolved_ok {A} (o : Outcome A) : resolved o = true -> exists a, o = Ok a.
Proof. destruct o; [eauto | discriminate]. Qed.

Lemma resolved_unit (o : Outcome unit) : resolved o = true -> o = Ok tt.
Proof. destruct o as [[]|]; [reflexivity | discriminate]. Qed.

Lemma pageOpens_inv pp b0 :
  pageOpens pp b0 = true ->
  exists browser context page,
    result (getBrowser pp b0) = Ok browser
    /\ createBrowserContext pp = Ok context
    /\ newPage pp = Ok page.
Proof.
  unfold pageOpens. rewrite !andb_true_iff. intros [[Hb Hc] Hp].
  apply resolved_ok in Hb, Hc, Hp.
  destruct Hb as [browser Hb], Hc as [context Hc], Hp as [page Hp]. eauto 6.
Qed.

Lemma setupCompletes_inv pp :
  setupCompletes pp = true ->
  setUserAgent pp = Ok tt /\ setViewport pp = Ok tt
  /\ evaluateOnNewDocument pp = Ok tt /\ setRequestInterception pp = Ok tt.
Proof.
  unfold setupCompletes. rewrite !andb_true_iff. intros [[[H1 H2] H3] H4].
  auto using resolved_unit.
Qed.

Lemma fetchPage_result_any pp page url b :
  result (fetchPage pp page url b) = result (fetchPage pp page url None).
Proof. now rewrite !fetchPage_result. Qed.

Lemma onError_result_any pp url e b :
  result (onError pp url e b) = result (onError pp url e None).
Proof. now rewrite !onError_result. Qed.

(** The result of a fetch whose page exists: the cleanup decides whether a
    result is returned at all; then the try block's result stands, or the
    catch block's when the try block threw. *)
Lemma getPageContent_result pp url b0 :
  pageOpens pp b0 = true ->
  exists page,
    newPage pp = Ok page
    /\ result (getPageContent pp url b0) =
       andThen (close pp) (fun _ =>
         match result (fetchPage pp page url None) with
         | Ok r => Ok r
         | Throw e => result (onError pp url e None)
         end).
Proof.
  intros H. destruct (pageOpens_inv _ _ H) as (browser & context & page & Hb & Hc & Hp).
  exists page. split; [assumption|].
  rewrite getPageContent_unfold. cbn zeta. rewrite Hb, Hc, Hp. cbn [result].
  rewrite guarded_result, fetchPage_result_any.
  destruct (close pp); [|reflexivity]. cbn [andThen].
  destruct (result (fetchPage pp page url None)); [reflexivity|].
  apply onError_result_any.
Qed.

(** A fetch whose page does not come into existence returns nothing: the
    exception of the failed call leaves [getPageContent]. *)
Lemma getPageContent_escapes pp url b0 :
  pageOpens pp b0 = false ->
  exists e, result (getPageContent pp url b0) = Throw e.
Proof.
  unfold pageOpens. rewrite getPageContent_unfold. cbn zeta.
  destruct (result (getBrowser pp b0)); [|intros _; now eexists].
  destruct (createBrowserContext pp); [|intros _; now eexists].
  destruct (newPage pp); [discriminate | intros _; now eexists].
Qed.

Lemma getPageContent_events pp url b0 :
  pageOpens pp b0 = true ->
  exists page before,
    newPage pp = Ok page
    /\ events (getPageContent pp url b0)
       = (before ++ [Invoked (PageClose page) (resolved (close pp))])%list
    /\ closeCalls before = 0%nat
    /\ pagesCreated before = 1%nat.
Proof.
  intros H. destruct (pageOpens_inv _ _ H) as (browser & context & page & Hb & Hc & Hp).
  rewrite getPageContent_unfold. cbn zeta. rewrite Hb, Hc, Hp. cbn [events].
  rewrite guarded_events.
  set (inner := match result (fetchPage pp page url (browserAfter (getBrowser pp b0))) with
                | Ok _ => _ | Throw e => _ end).
  exists page, (events (getBrowser pp b0) ++ [Invoked (CreateBrowserContext browser) true]
                ++ [Invoked (NewPage context) true] ++ inner)%list.
  split; [reflexivity|]. split; [now rewrite <- !app_assoc|].
  assert (Hin : forall q, (forall l m t, q (Logged l m t) = false) ->
            (forall c ok, match c with
                          | CreateBrowserContext _ | NewPage _ | PageClose _ => True
                          | _ => q (Invoked c ok) = false end) ->
            count q inner = 0%nat).
  { intros q Hl Hi. subst inner.
    destruct (result (fetchPage pp page url _)).
    - now apply fetchPage_without.
    - rewrite count_app.
      rewrite (fetchPage_without q Hl Hi pp page url _).
      now rewrite (onError_without q Hl pp url e _). }
  unfold closeCalls, pagesCreated. rewrite !count_app.
  rewrite (getBrowser_without isClose), (getBrowser_without isPageCreated);
    try (intros; reflexivity); try (intros []; intros; try exact I; reflexivity).
  rewrite !Hin; try (intros; reflexivity); try (intros []; intros; try exact I; reflexivity).
  split; reflexivity.
Qed.

(** ** How a fetch can end *)

Lemma fetchPage_with_response pp page url response h :
  setupCompletes pp = true -> goto pp = Ok (Some response) -> content pp = Ok h ->
  result (fetchPage pp page url None) =
  Ok (if JsString.includes h "px-captcha" || (resp_status response =? 403)
      then {| html := Some h;
              status := 403;
              error := Some "Bot detection or captcha was triggered.";
              finalUrl := pageUrl pp |}
      else {| html := Some h;
              status := resp_status response;
              error := None;
              finalUrl := pageUrl pp |}).
Proof.
  intros Hs Hg Hc. apply setupCompletes_inv in Hs. destruct Hs as (H1 & H2 & H3 & H4).
  rewrite fetchPage_result, H1, H2, H3, H4, Hg, Hc. reflexivity.
Qed.

Lemma fetchPage_without_response pp page url :
  setupCompletes pp = true -> goto pp = Ok None ->
  result (fetchPage pp page url None) =
  Ok {| html := None;
        status := 502;
        error := Some "Navigation failed, no response received from the server.";
        finalUrl := pageUrl pp |}.
Proof.
  intros Hs Hg. apply setupCompletes_inv in Hs. destruct Hs as (H1 & H2 & H3 & H4).
  rewrite fetchPage_result, H1, H2, H3, H4, Hg. reflexivity.
Qed.

Lemma fetchPage_navigation_throws pp page url e :
  setupCompletes pp = true -> goto pp = Throw e ->
  result (fetchPage pp page url None) = Throw e.
Proof.
  intros Hs Hg. apply setupCompletes_inv in Hs. destruct Hs as (H1 & H2 & H3 & H4).
  rewrite fetchPage_result, H1, H2, H3, H4, Hg. reflexivity.
Qed.

(** How the try block can end. *)
Lemma fetchPage_ends pp page url :
  match result (fetchPage pp page url None) with
  | Ok r =>
      setupCompletes pp = true
      /\ ((goto pp = Ok None /\ html r = None /\ status r = 502 /\ error r <> None
           /\ finalUrl r = pageUrl pp)
          \/ exists response h,
               goto pp = Ok (Some response) /\ content pp = Ok h
               /\ html r = Some h /\ finalUrl r = pageUrl pp
               /\ ((status r = 403 /\ error r <> None)
                   \/ (status r = resp_status response /\ status r <> 403
                       /\ error r = None)))
  | Throw e =>
      ~ (setupCompletes pp = true
         /\ exists response h, goto pp = Ok (Some response) /\ content pp = Ok h)
  end.
Proof.
  rewrite fetchPage_result. unfold setupCompletes.
  destruct (setUserAgent pp); cbn [andThen resolved andb];
    [|intros [? _]; discriminate].
  destruct (setViewport pp); cbn [andThen resolved andb];
    [|intros [? _]; discriminate].
  destruct (evaluateOnNewDocument pp); cbn [andThen resolved andb];
    [|intros [? _]; discriminate].
  destruct (setRequestInterception pp); cbn [andThen resolved andb];
    [|intros [? _]; discriminate].
  destruct (goto pp) as [[response|]|]; cbn [andThen].
  - destruct (content pp) as [h|]; cbn [andThen].
    + split; [reflexivity|]. right. exists response, h.
      destruct (_ || _)%bool eqn:E; cbn; repeat split; try reflexivity.
      * left. split; [reflexivity | discriminate].
      * right. apply orb_false_iff in E. destruct E as [_ E].
        apply Z.eqb_neq in E. now repeat split.
    + intros [_ (r & h & _ & H)]. discriminate.
  - split; [reflexivity|]. left. cbn. repeat split. discriminate.
  - intros [_ (r & h & H & _)]. discriminate.
Qed.

Lemma returned_result pp url b0 r :
  result (getPageContent pp url b0) = Ok r ->
  pageOpens pp b0 = true /\ close pp = Ok tt
  /\ exists page,
       result (fetchPage pp page url None) = Ok r
       \/ exists e, result (fetchPage pp page url None) = Throw e
                    /\ result (onError pp url e None) = Ok r.
Proof.
  intros H. destruct (pageOpens pp b0) eqn:Ho.
  - destruct (getPageContent_result pp url b0 Ho) as (page & _ & Hr).
    rewrite Hr in H. destruct (close pp) as [[]|]; [|discriminate].
    cbn [andThen] in H. repeat split. exists page.
    destruct (result (fetchPage pp page url None)); [now left | right; eauto].
  - destruct (getPageContent_escapes pp url b0 Ho) as [e He]. congruence.
Qed.

(** ** The boundary of [getPageContent] *)

Lemma acquisition_failure_escapes pp url b0 e :
  result (getBrowser pp b0) = Throw e ->
  result (getPageContent pp url b0) = Throw e.
Proof.
  intros H. rewrite getPageContent_unfold. cbn zeta. now rewrite H.
Qed.

Lemma cleanup_failure_escapes pp url b0 e :
  pageOpens pp b0 = true -> close pp = Throw e ->
  result (getPageContent pp url b0) = Throw e.
Proof.
  intros H Hc. destruct (getPageContent_result pp url b0 H) as (page & _ & ->).
  now rewrite Hc.
Qed.

(** Once the page exists and its close completes, a result is returned
    whatever happens inside the try block. *)
Lemma getPageContent_returns pp url b0 :
  pageOpens pp b0 = true -> close pp = Ok tt ->
  exists r, result (getPageContent pp url b0) = Ok r.
Proof.
  intros H Hc. destruct (getPageContent_result pp url b0 H) as (page & _ & ->).
  rewrite Hc. cbn [andThen].
  destruct (result (fetchPage pp page url None)); [eauto|].
  rewrite onError_result. eauto.
Qed.

(** C1, at the failing input: no browser is stored and the launch is
    rejected.  The call to [getBrowser] stands before the try block, so
    the rejection leaves [getPageContent] as it is; no result with status
    500 is returned. *)
Theorem launch_failure_leaves_getPageContent :
  result (getPageContent launchFails exampleUrl None) = Throw launchFailure
  /\ events (getPageContent launchFails exampleUrl None)
     = [ Logged LevelLog "No active browser found. Launching a new instance..." None;
         Invoked UseStealthPlugin true;
         Invoked (Launch "new" ["--no-sandbox"; "--disable-setuid-sandbox";
                               "--disable-dev-shm-usage"]) false ].
Proof. split; reflexivity. Qed.

(** ** Closing the page *)

(** Pages and calls of [page.close()] are paired one to one, on every
    path. *)
Lemma closes_pair_with_pages pp url b0 :
  closeCalls (events (getPageContent pp url b0))
  = pagesCreated (events (getPageContent pp url b0)).
Proof.
  destruct (pageOpens pp b0) eqn:Ho.
  - destruct (getPageContent_events pp url b0 Ho)
      as (page & before & _ & -> & Hc & Hn).
    unfold closeCalls, pagesCreated in *. rewrite !count_app, Hc, Hn.
    reflexivity.
  - revert Ho. unfold pageOpens. rewrite getPageContent_unfold. cbn zeta.
    assert (Hg : closeCalls (events (getBrowser pp b0)) = 0%nat
                 /\ pagesCreated (events (getBrowser pp b0)) = 0%nat).
    { split; apply getBrowser_without;
        try (intros; reflexivity); intros []; intros; try exact I; reflexivity. }
    destruct Hg as [Hc Hn]. unfold closeCalls, pagesCreated in *.
    destruct (result (getBrowser pp b0)); cbn [events]; [|intros _; congruence].
    destruct (createBrowserContext pp); cbn [events];
      [|intros _; rewrite !count_app, Hc, Hn; reflexivity].
    destruct (newPage pp); cbn [events]; [discriminate|].
    intros _. rewrite !count_app, Hc, Hn. reflexivity.
Qed.

(** C2, at the failing input: [context.newPage()] is rejected.  The
    browsing context has been created, the call unwinds with the exception
    before the try block is entered, and nothing has been closed: the
    context is left open.  On the path where everything completes the only
    close of the call is that of the page. *)
Theorem context_is_left_open :
  (result (getPageContent newPageFails exampleUrl None) = Throw pageFailure
   /\ contextsCreated (events (getPageContent newPageFails exampleUrl None)) = 1%nat
   /\ closeCalls (events (getPageContent newPageFails exampleUrl None)) = 0%nat)
  /\ filter isLifecycle (events (getPageContent succeeds exampleUrl None))
     = [ Invoked (CreateBrowserContext 1%nat) true;
         Invoked (NewPage 2%nat) true;
         Invoked (PageClose 3%nat) true ].
Proof. repeat split. Qed.

(** X19: whenever the page of the fetch has come into existence,
    [page.close()] is called exactly once and it is the last event of the
    call, after the try block and the catch block have run, whether the
    try block returned a result or threw; exactly one page was created. *)
Theorem page_closed_exactly_once pp url b0 :
  pageOpens pp b0 = true ->
  exists page before,
    newPage pp = Ok page
    /\ events (getPageContent pp url b0)
       = (before ++ [Invoked (PageClose page) (resolved (close pp))])%list
    /\ closeCalls before = 0%nat
    /\ closeCalls (events (getPageContent pp url b0)) = 1%nat
    /\ pagesCreated (events (getPageContent pp url b0)) = 1%nat.
Proof.
  intros H.
  destruct (getPageContent_events pp url b0 H)
    as (page & before & Hp & Hev & Hc & Hn).
  exists page, before. repeat split; try assumption.
  - rewrite Hev. unfold closeCalls in *. rewrite count_app, Hc. reflexivity.
  - rewrite Hev. unfold pagesCreated in *. rewrite count_app, Hn. reflexivity.
Qed.

Lemma page_closed_exactly_once_witness :
  pageOpens timesOut None = true
  /\ exists page before,
       newPage timesOut = Ok page
       /\ events (getPageContent timesOut exampleUrl None)
          = (before ++ [Invoked (PageClose page) (resolved (close timesOut))])%list
       /\ closeCalls before = 0%nat
       /\ closeCalls (events (getPageContent timesOut exampleUrl None)) = 1%nat
       /\ pagesCreated (events (getPageContent timesOut exampleUrl None)) = 1%nat.
Proof.
  split; [reflexivity|].
  apply (page_closed_exactly_once timesOut exampleUrl None).
  reflexivity.
Defined.

(** ** Classification of the outcome *)

(** C3 as stated fails in three ways.  For a 403 answer the error field
    is not the text the claim quotes; when [page.content()] is rejected
    after a 403 answer the result has status 500 and no HTML; and when
    [page.close()] is rejected after a 403 answer no result is returned. *)
Lemma result_of_403_is_not_as_claimed :
  (goto blocked = Ok (Some {| resp_status := 403 |})
   /\ exists r,
        result (getPageContent blocked exampleUrl None) = Ok r
        /\ status r = 403
        /\ error r <> Some "bot detection or captcha triggered")
  /\ (goto blockedUnserialized = Ok (Some {| resp_status := 403 |})
      /\ exists r,
           result (getPageContent blockedUnserialized exampleUrl None) = Ok r
           /\ status r = 500
           /\ html r = None)
  /\ (goto blockedCloseFails = Ok (Some {| resp_status := 403 |})
      /\ content blockedCloseFails = Ok "<html>Access denied</html>"
      /\ result (getPageContent blockedCloseFails exampleUrl None)
         = Throw closeFailure).
Proof.
  split; [|split].
  - split; [reflexivity|]. eexists. split; [reflexivity|].
    split; [reflexivity | discriminate].
  - split; [reflexivity|]. eexists. repeat split.
  - repeat split.
Qed.

(** C3, amended: whenever navigation yields a response, [page.content()]
    returns the serialization and [page.close()] completes, if the
    serialized content contains [px-captcha] or the response status is
    403, then the result has status 403, carries the serialized HTML, the error
    "Bot detection or captcha was triggered." and the page's current
    address as finalUrl, whatever the status of the response when the
    marker is present, and whether or not the marker is present when the
    status is 403. *)
Theorem challenge_or_403_is_classified_403 pp url b0 response h :
  pageOpens pp b0 = true ->
  setupCompletes pp = true ->
  goto pp = Ok (Some response) ->
  content pp = Ok h ->
  close pp = Ok tt ->
  JsString.Substring "px-captcha" h \/ resp_status response = 403 ->
  result (getPageContent pp url b0) =
  Ok {| html := Some h;
        status := 403;
        error := Some "Bot detection or captcha was triggered.";
        finalUrl := pageUrl pp |}.
Proof.
  intros Ho Hs Hg Hc Hx Hm.
  destruct (getPageContent_result pp url b0 Ho) as (page & _ & ->).
  rewrite Hx. cbn [andThen].
  rewrite (fetchPage_with_response pp page url response h Hs Hg Hc).
  assert (E : JsString.includes h "px-captcha" || (resp_status response =? 403) = true).
  { apply orb_true_iff. destruct Hm as [Hm | Hm].
    - left. now apply includes_spec.
    - right. now apply Z.eqb_eq. }
  now rewrite E.
Qed.

Lemma challenge_or_403_is_classified_403_witness :
  pageOpens blocked None = true
  /\ setupCompletes blocked = true
  /\ goto blocked = Ok (Some {| resp_status := 403 |})
  /\ content blocked = Ok "<html>Access denied</html>"
  /\ close blocked = Ok tt
  /\ result (getPageContent blocked exampleUrl None) =
     Ok {| html := Some "<html>Access denied</html>";
           status := 403;
           error := Some "Bot detection or captcha was triggered.";
           finalUrl := pageUrl blocked |}.
Proof.
  repeat (split; [reflexivity|]).
  apply (challenge_or_403_is_classified_403 blocked exampleUrl None
           {| resp_status := 403 |} "<html>Access denied</html>");
    try reflexivity.
  right. reflexivity.
Defined.

(** C4 as stated fails in two ways.  With no response the error field is
    not the text the claim quotes; and when [page.close()] is rejected
    after a navigation without response no result is returned. *)
Lemma result_of_no_response_is_not_as_claimed :
  (goto noResponse = Ok None
   /\ exists r,
        result (getPageContent noResponse exampleUrl None) = Ok r
        /\ status r = 502
        /\ error r <> Some "navigation failed, no response from server")
  /\ (goto noResponseCloseFails = Ok None
      /\ result (getPageContent noResponseCloseFails exampleUrl None)
         = Throw closeFailure).
Proof.
  split.
  - split; [reflexivity|]. eexists. split; [reflexivity|].
    split; [reflexivity | discriminate].
  - split; reflexivity.
Qed.

(** C4, amended: whenever navigation completes with no response object
    and [page.close()] completes, the result has status 502, no
    HTML, the error "Navigation failed, no response received from the
    server." and the page's current address at that moment as finalUrl. *)
Theorem no_response_is_classified_502 pp url b0 :
  pageOpens pp b0 = true ->
  setupCompletes pp = true ->
  goto pp = Ok None ->
  close pp = Ok tt ->
  result (getPageContent pp url b0) =
  Ok {| html := None;
        status := 502;
        error := Some "Navigation failed, no response received from the server.";
        finalUrl := pageUrl pp |}.
Proof.
  intros Ho Hs Hg Hx.
  destruct (getPageContent_result pp url b0 Ho) as (page & _ & ->).
  rewrite Hx. cbn [andThen].
  now rewrite (fetchPage_without_response pp page url Hs Hg).
Qed.

Lemma no_response_is_classified_502_witness :
  pageOpens noResponse None = true
  /\ setupCompletes noResponse = true
  /\ goto noResponse = Ok None
  /\ close noResponse = Ok tt
  /\ result (getPageContent noResponse exampleUrl None) =
     Ok {| html := None;
           status := 502;
           error := Some "Navigation failed, no response received from the server.";
           finalUrl := pageUrl noResponse |}.
Proof.
  repeat (split; [reflexivity|]).
  apply (no_response_is_classified_502 noResponse exampleUrl None); reflexivity.
Defined.

(** A [TimeoutError] thrown by any call of the try block ends in the 504
    result. *)
Lemma timeout_in_try_block pp url b0 page st :
  pageOpens pp b0 = true ->
  newPage pp = Ok page ->
  result (fetchPage pp page url None) = Throw (TimeoutError st) ->
  close pp = Ok tt ->
  result (getPageContent pp url b0) =
  Ok {| html := None;
        status := 504;
        error := Some "Navigation timed out after 60s. The target page is likely too slow or unresponsive.";
        finalUrl := Some (JsString.nullish (pageUrl pp) url) |}.
Proof.
  intros Ho Hp Hf Hx.
  destruct (getPageContent_result pp url b0 Ho) as (page' & Hp' & ->).
  assert (page' = page) by congruence. subst page'.
  rewrite Hx, Hf. cbn [andThen]. now rewrite onError_result.
Qed.




(** ** The shared browser *)

Lemma getBrowser_reuse pp stored b :
  stored = Some b -> connected pp b = true ->
  getBrowser pp stored
  = {| result := Ok b; browserAfter := Some b; events := [] |}.
Proof.
  intros -> Hc. unfold getBrowser, bind, getThisBrowser, activeBrowser.
  cbn. now rewrite Hc.
Qed.

Lemma getBrowser_launch pp stored :
  activeBrowser pp stored = None ->
  result (getBrowser pp stored) = launch pp
  /\ (forall fresh, launch pp = Ok fresh ->
                    browserAfter (getBrowser pp stored) = Some fresh)
  /\ launches (events (getBrowser pp stored)) = 1%nat.
Proof.
  intros Ha. unfold getBrowser, bind, getThisBrowser.
  cbn [result browserAfter events]. rewrite Ha. cbn.
  destruct (launch pp); cbn; repeat split; congruence.
Qed.

Lemma activeBrowser_some pp stored b :
  activeBrowser pp stored = Some b -> stored = Some b /\ connected pp b = true.
Proof.
  unfold activeBrowser. destruct stored as [s|]; [|discriminate].
  destruct (connected pp s) eqn:E; [|discriminate].
  intros H. injection H as <-. now split.
Qed.

(** C7: acquisition reuses a stored, connected handle and relaunches
    otherwise.  If the stored handle exists and reports itself connected it
    is returned, the stored handle is unchanged and nothing at all is done,
    so no process is launched.  If no handle is stored, or the stored one
    reports itself disconnected, exactly one launch is made and what the
    launch yields is what is returned, never the stale handle; when the
    launch succeeds its handle is stored.  A further acquisition, the
    returned handle still being connected, returns it again and launches
    nothing. *)
Theorem getBrowser_reuses_or_relaunches pp stored :
  (forall b,
      stored = Some b -> connected pp b = true ->
      getBrowser pp stored
      = {| result := Ok b; browserAfter := Some b; events := [] |})
  /\ (stored = None \/ (exists stale, stored = Some stale
                                      /\ connected pp stale = false) ->
      launches (events (getBrowser pp stored)) = 1%nat
      /\ result (getBrowser pp stored) = launch pp
      /\ forall fresh, launch pp = Ok fresh ->
                       browserAfter (getBrowser pp stored) = Some fresh)
  /\ (forall b,
         result (getBrowser pp stored) = Ok b -> connected pp b = true ->
         getBrowser pp (browserAfter (getBrowser pp stored))
         = {| result := Ok b; browserAfter := Some b; events := [] |}).
Proof.
  split; [exact (getBrowser_reuse pp stored)|]. split.
  - intros Hs.
    assert (Ha : activeBrowser pp stored = None).
    { destruct Hs as [-> | (stale & -> & Hc)]; cbn;
        [reflexivity | now rewrite Hc]. }
    destruct (getBrowser_launch pp stored Ha) as (Hr & Hb & Hn).
    repeat split; assumption.
  - intros b Hr Hc. apply getBrowser_reuse; [|assumption].
    destruct (activeBrowser pp stored) as [a|] eqn:Ha.
    + apply activeBrowser_some in Ha. destruct Ha as [Hs Hca].
      rewrite (getBrowser_reuse pp stored a Hs Hca) in *.
      cbn in *. congruence.
    + destruct (getBrowser_launch pp stored Ha) as (Hr' & Hb & _).
      apply Hb. congruence.
Qed.

Lemma getBrowser_reuses_or_relaunches_witness :
  (connected succeeds 5%nat = true
   /\ getBrowser succeeds (Some 5%nat)
      = {| result := Ok 5%nat; browserAfter := Some 5%nat; events := [] |})
  /\ (connected succeeds 7%nat = false
      /\ launches (events (getBrowser succeeds (Some 7%nat))) = 1%nat
      /\ result (getBrowser succeeds (Some 7%nat)) = Ok 1%nat
      /\ browserAfter (getBrowser succeeds (Some 7%nat)) = Some 1%nat)
  /\ getBrowser succeeds (browserAfter (getBrowser succeeds (Some 7%nat)))
     = {| result := Ok 1%nat; browserAfter := Some 1%nat; events := [] |}.
Proof.
  destruct (getBrowser_reuses_or_relaunches succeeds (Some 7%nat))
    as (_ & Hrelaunch & Hagain).
  destruct (Hrelaunch (or_intror (ex_intro _ 7%nat (conj eq_refl eq_refl))))
    as (Hn & Hr & Hb).
  split; [split; [reflexivity|]|split].
  - apply (getBrowser_reuses_or_relaunches succeeds (Some 5%nat)); reflexivity.
  - split; [reflexivity|]. split; [exact Hn|].
    split; [exact Hr | exact (Hb 1%nat eq_refl)].
  - apply Hagain; reflexivity.
Defined.

(** ** The fields of a returned result *)

(** C8 as stated fails: a 500 answer without the challenge marker is passed
    through, a status the claim counts as non-success, yet the error field
    is not populated. *)
Lemma passed_through_500_has_no_error :
  exists r,
    result (getPageContent serverError exampleUrl None) = Ok r
    /\ status r = 500
    /\ error r = None.
Proof. eexists. repeat split. Qed.

(** C8, amended: in every returned result the error field is populated
    exactly when the result is one of the four failure results, that is,
    exactly when html is null or the status is 403, and then the status is
    403, 502, 504 or 500.  When the error field is absent the status is
    the status of the response, passed through as it is: any status other
    than 403. *)
Theorem error_populated_on_failure_results pp url b0 r :
  result (getPageContent pp url b0) = Ok r ->
  (error r <> None <-> html r = None \/ status r = 403)
  /\ (error r <> None ->
      status r = 403 \/ status r = 502 \/ status r = 504 \/ status r = 500)
  /\ (error r = None ->
      exists response,
        goto pp = Ok (Some response)
        /\ status r = resp_status response
        /\ resp_status response <> 403).
Proof.
  intros H. destruct (returned_result pp url b0 r H) as (_ & _ & page & Hr).
  destruct Hr as [Hr | (e & _ & Hr)].
  - pose proof (fetchPage_ends pp page url) as He. rewrite Hr in He.
    destruct He as [_ [(Hg & Hh & Hs & Herr & _)
                      | (response & h & Hg & _ & Hh & _ & Hcase)]].
    + repeat split; auto; try congruence.
    + destruct Hcase as [[Hs Herr] | (Hs & Hn & Herr)].
      * repeat split; auto; try congruence.
      * repeat split; try congruence.
        -- intros [? | ?]; congruence.
        -- intros _. exists response. repeat split; congruence.
  - rewrite onError_result in Hr. injection Hr as <-.
    destruct (instanceofTimeoutError e); cbn;
      repeat split; auto; try discriminate; try congruence.
Qed.

Lemma error_populated_on_failure_results_witness :
  result (getPageContent serverError exampleUrl None) = Ok passedThrough500
  /\ (error passedThrough500 <> None <->
      html passedThrough500 = None \/ status passedThrough500 = 403)
  /\ (error passedThrough500 <> None ->
      status passedThrough500 = 403 \/ status passedThrough500 = 502
      \/ status passedThrough500 = 504 \/ status passedThrough500 = 500)
  /\ (error passedThrough500 = None ->
      exists response,
        goto serverError = Ok (Some response)
        /\ status passedThrough500 = resp_status response
        /\ resp_status response <> 403).
Proof.
  split; [reflexivity|].
  apply (error_populated_on_failure_results serverError exampleUrl None).
  reflexivity.
Defined.

(** C9 as stated fails: navigation produced a response, serialization of
    the page then failed, and the returned result has no HTML. *)
Lemma response_without_html :
  goto serializationFails = Ok (Some {| resp_status := 200 |})
  /\ exists r,
       result (getPageContent serializationFails exampleUrl None) = Ok r
       /\ html r = None
       /\ status r = 500.
Proof. split; [reflexivity|]. eexists. repeat split. Qed.

(** C9, amended: in every returned result html is a string exactly when
    navigation produced a response and the page was then serialized (the
    pass-through result and the 403 result), and html is then that
    serialization; in every other returned result (502, 504, 500, among
    them a response whose serialization failed) html is null.  The
    finalUrl field holds the page's current address whenever the page
    reports one. *)
Theorem html_present_iff_serialized pp url b0 r :
  result (getPageContent pp url b0) = Ok r ->
  (html r <> None <->
   setupCompletes pp = true
   /\ exists response h, goto pp = Ok (Some response) /\ content pp = Ok h)
  /\ (forall h, html r = Some h -> content pp = Ok h)
  /\ (html r = None -> status r = 502 \/ status r = 504 \/ status r = 500)
  /\ (forall current, pageUrl pp = Some current -> finalUrl r = Some current).
Proof.
  intros H. destruct (returned_result pp url b0 r H) as (_ & _ & page & Hr).
  pose proof (fetchPage_ends pp page url) as He.
  destruct Hr as [Hr | (e & Hthrow & Hr)].
  - rewrite Hr in He.
    destruct He as [Hs [(Hg & Hh & Hst & _ & Hf)
                       | (response & h & Hg & Hc & Hh & Hf & _)]].
    + repeat split; try congruence.
      * intros (_ & response & h & Hg' & _). congruence.
      * auto.
    + repeat split; try congruence.
      * eauto.
  - rewrite Hthrow in He. rewrite onError_result in Hr. injection Hr as <-.
    destruct (instanceofTimeoutError e); cbn;
      repeat split; auto; try discriminate; try congruence;
      try (intros Hx; exfalso; exact (He Hx));
      intros current ->; reflexivity.
Qed.

Lemma html_present_iff_serialized_witness :
  result (getPageContent serializationFails exampleUrl None) = Ok internalError
  /\ (html internalError <> None <->
      setupCompletes serializationFails = true
      /\ exists response h,
           goto serializationFails = Ok (Some response)
           /\ content serializationFails = Ok h)
  /\ (forall h, html internalError = Some h -> content serializationFails = Ok h)
  /\ (html internalError = None ->
      status internalError = 502 \/ status internalError = 504
      \/ status internalError = 500)
  /\ (forall current,
         pageUrl serializationFails = Some current ->
         finalUrl internalError = Some current).
Proof.
  split; [reflexivity|].
  apply (html_present_iff_serialized serializationFails exampleUrl None).
  reflexivity.
Defined.


(** ** Scenarios *)

(** A sub-request for [/AB12CD34/init.js] is aborted, as is a tracker,
    while the request for the document itself proceeds. *)
Example init_script_aborted_document_proceeds :
  interceptions (events (getPageContent succeeds exampleUrl None))
  = [ (documentRequest, Continue);
      (initScriptRequest, Abort);
      (trackerRequest, Abort) ].
Proof. reflexivity. Qed.

Example fetch_of_ok_page :
  result (getPageContent succeeds exampleUrl None)
  = Ok {| html := Some "<html>...</html>";
          status := 200;
          error := None;
          finalUrl := Some "https://example.test/ok" |}.
Proof. reflexivity. Qed.

Example fetch_that_times_out :
  result (getPageContent timesOut exampleUrl None)
  = Ok {| html := None;
          status := 504;
          error := Some "Navigation timed out after 60s. The target page is likely too slow or unresponsive.";
          finalUrl := Some "https://example.test/ok" |}.
Proof. reflexivity. Qed.

Example pattern_examples :
  RegExp.test PXSCRIPT_PATTERN "/AB12CD34/init.js" = true
  /\ RegExp.test PXSCRIPT_PATTERN "https://client.example/58Asv359/INIT.JS?v=2" = true
  /\ RegExp.test PXSCRIPT_PATTERN "/init.js" = false
  /\ RegExp.test PXSCRIPT_PATTERN "/ab-cd/init.js" = false
  /\ RegExp.test PXSCRIPT_PATTERN "/abcd/initxjs" = false.
Proof. repeat split. Qed.

(** ** The stored handle across acquisitions *)

Lemma getBrowser_run pp stored :
  match activeBrowser pp stored with
  | Some b =>
      getBrowser pp stored
      = {| result := Ok b; browserAfter := stored; events := [] |}
      /\ stored = Some b
  | None =>
      result (getBrowser pp stored) = launch pp
      /\ browserAfter (getBrowser pp stored)
         = match launch pp with
           | Ok fresh => Some fresh
           | Throw _ => stored
           end
      /\ launches (events (getBrowser pp stored)) = 1%nat
      /\ observers (events (getBrowser pp stored))
         = (if resolved (launch pp) then 1 else 0)%nat
  end.
Proof.
  destruct (activeBrowser pp stored) as [b|] eqn:Ha.
  - apply activeBrowser_some in Ha. destruct Ha as [-> Hc].
    split; [|reflexivity]. now apply getBrowser_reuse.
  - unfold getBrowser, bind, getThisBrowser.
    cbn [result browserAfter events]. rewrite Ha. cbn.
    destruct (launch pp); cbn; repeat split.
Qed.

(** X1: what [getBrowser] returns is what it leaves stored; when it throws,
    the error is the launch's, the stored handle is as before and no
    disconnect observer has been registered. *)
Theorem getBrowser_returns_what_it_stores pp stored :
  match result (getBrowser pp stored) with
  | Ok b => browserAfter (getBrowser pp stored) = Some b
  | Throw e =>
      launch pp = Throw e
      /\ browserAfter (getBrowser pp stored) = stored
      /\ observers (events (getBrowser pp stored)) = 0%nat
  end.
Proof.
  pose proof (getBrowser_run pp stored) as H.
  destruct (activeBrowser pp stored) as [b|].
  - destruct H as [-> ->]. reflexivity.
  - destruct H as (-> & Hb & _ & Ho).
    destruct (launch pp); cbn in *; auto.
Qed.

(** X2: a rejected launch is tried again by the next acquisition: nothing
    was stored, so with connectivity unchanged the next call launches
    once more and returns what that launch yields. *)
Theorem failed_launch_is_retried pp pp' stored e :
  result (getBrowser pp stored) = Throw e ->
  (forall b, connected pp' b = connected pp b) ->
  launches (events (getBrowser pp' (browserAfter (getBrowser pp stored)))) = 1%nat
  /\ result (getBrowser pp' (browserAfter (getBrowser pp stored))) = launch pp'.
Proof.
  intros Hr Hc.
  pose proof (getBrowser_run pp stored) as H.
  destruct (activeBrowser pp stored) as [b|] eqn:Ha.
  - destruct H as [H _]. rewrite H in Hr. discriminate.
  - destruct H as (Hres & Hb & _). rewrite Hres in Hr. rewrite Hb, Hr.
    assert (Ha' : activeBrowser pp' stored = None).
    { unfold activeBrowser in *. destruct stored as [s|]; [|reflexivity].
      rewrite Hc. exact Ha. }
    pose proof (getBrowser_run pp' stored) as H'. rewrite Ha' in H'.
    destruct H' as (Hres' & _ & Hn & _). now split.
Qed.

Lemma failed_launch_is_retried_witness :
  result (getBrowser launchFails (Some 7%nat)) = Throw launchFailure
  /\ launches (events (getBrowser succeeds
                         (browserAfter (getBrowser launchFails (Some 7%nat)))))
     = 1%nat
  /\ result (getBrowser succeeds
               (browserAfter (getBrowser launchFails (Some 7%nat))))
     = launch succeeds.
Proof.
  split; [reflexivity|].
  apply (failed_launch_is_retried launchFails succeeds (Some 7%nat) launchFailure);
    reflexivity.
Defined.

(** X3: the disconnect observer clears the stored handle whichever browser
    it was registered on: after it has run, the next acquisition launches,
    even when the handle that was stored still reports itself connected. *)
Theorem disconnect_clears_any_stored_handle pp stored :
  browserAfter (onDisconnected stored) = None
  /\ result (onDisconnected stored) = Ok tt
  /\ launches (events (getBrowser pp (browserAfter (onDisconnected stored)))) = 1%nat
  /\ result (getBrowser pp (browserAfter (onDisconnected stored))) = launch pp.
Proof.
  pose proof (getBrowser_run pp None) as H. cbn [activeBrowser] in H.
  destruct H as (Hr & _ & Hn & _).
  change (browserAfter (onDisconnected stored)) with (@None Browser).
  repeat split; assumption.
Qed.

(** ** Shutdown *)

Lemma onModuleDestroy_run pp stored :
  onModuleDestroy pp stored =
  match stored with
  | None =>
      {| result := Ok tt; browserAfter := None;
         events := [Logged LevelLog "Destroying module, closing browser..." None] |}
  | Some b =>
      {| result := browserClose pp;
         browserAfter := if resolved (browserClose pp) then None else Some b;
         events := [Logged LevelLog "Destroying module, closing browser..." None;
                    Invoked (BrowserClose b) (resolved (browserClose pp))] |}
  end.
Proof.
  unfold onModuleDestroy, bind, getThisBrowser, log, emit.
  cbn [result browserAfter events].
  destruct stored as [b|]; [|reflexivity].
  unfold await, setThisBrowser. cbn.
  destruct (browserClose pp) as [[]|]; reflexivity.
Qed.

(** X4: shutdown is safe to repeat: once [onModuleDestroy] has completed the
    stored handle is gone, and a second call completes without calling
    [browser.close()] again, whatever the browser would answer. *)
Theorem onModuleDestroy_twice pp pp' stored :
  result (onModuleDestroy pp stored) = Ok tt ->
  browserAfter (onModuleDestroy pp stored) = None
  /\ (browserCloses (events (onModuleDestroy pp stored)) <= 1)%nat
  /\ result (onModuleDestroy pp' (browserAfter (onModuleDestroy pp stored))) = Ok tt
  /\ browserCloses
       (events (onModuleDestroy pp' (browserAfter (onModuleDestroy pp stored))))
     = 0%nat.
Proof.
  rewrite !onModuleDestroy_run. destruct stored as [b|]; cbn.
  - intros ->. cbn. repeat split. cbv. lia.
  - intros _. repeat split. cbv. lia.
Qed.

Lemma onModuleDestroy_twice_witness :
  result (onModuleDestroy succeeds (Some 5%nat)) = Ok tt
  /\ browserAfter (onModuleDestroy succeeds (Some 5%nat)) = None
  /\ (browserCloses (events (onModuleDestroy succeeds (Some 5%nat))) <= 1)%nat
  /\ result (onModuleDestroy launchFails
               (browserAfter (onModuleDestroy succeeds (Some 5%nat)))) = Ok tt
  /\ browserCloses
       (events (onModuleDestroy launchFails
                  (browserAfter (onModuleDestroy succeeds (Some 5%nat)))))
     = 0%nat.
Proof.
  split; [reflexivity|].
  apply (onModuleDestroy_twice succeeds launchFails (Some 5%nat)).
  reflexivity.
Defined.



(** ** Navigation as a step *)

Lemma pageGoto_run pp page url b :
  result (pageGoto pp page url onRequest b) = goto pp
  /\ browserAfter (pageGoto pp page url onRequest b) = b.
Proof.
  unfold pageGoto.
  destruct (forEach_onRequest_completes (requests pp) b) as [Hr Hb].
  rewrite result_bind, browserAfter_bind. cbn [result browserAfter emit].
  rewrite result_bind, browserAfter_bind, Hr, Hb. now split.
Qed.

(** ** Calls a part of the fetch never makes *)

Section Calls.

Variable p : Event -> bool.
Hypothesis p_logged : forall level message trace, p (Logged level message trace) = false.

Lemma quiet_single ev : p ev = false -> Without p [ev].
Proof. apply without_single. Qed.

Lemma quiet_log level message : Emits (Without p) (log level message).
Proof. intros b. apply quiet_single, p_logged. Qed.

(** The try block and the catch block, for an observer blind to every call
    they make. *)
Hypothesis p_try : forall c ok,
  match c with
  | SetUserAgent _ _ _ | SetViewport _ _ _ | EvaluateOnNewDocument _ _
  | SetRequestInterception _ _ | PageOn _ _ | Goto _ _ _ _
  | RequestAbort _ _ | RequestContinue _ | PageContent _ =>
      p (Invoked c ok) = false
  | _ => True
  end.

Lemma quiet_onRequest request : Emits (Without p) (onRequest request).
Proof.
  intros b. unfold onRequest.
  pose proof (p_try (RequestAbort request "aborted") true) as Ha.
  pose proof (p_try (RequestContinue request) true) as Hc.
  cbv beta iota in Ha, Hc.
  destruct (RegExp.test _ _); [|destruct (JsString.some _ _)];
    unfold Without, count; simpl; rewrite ?p_logged, ?Ha, ?Hc; reflexivity.
Qed.

Lemma quiet_fetchPage pp page url : Emits (Without p) (fetchPage pp page url).
Proof.
  unfold fetchPage, pageGoto.
  repeat (apply (emits_bind _ (without_app p)); [|intros]);
    try apply quiet_log.
  - apply emits_await, quiet_single, (p_try (SetUserAgent _ _ _)).
  - apply emits_await, quiet_single, (p_try (SetViewport _ _ _)).
  - apply emits_await, quiet_single, (p_try (EvaluateOnNewDocument _ _)).
  - apply emits_await, quiet_single, (p_try (SetRequestInterception _ _)).
  - apply emits_emit, quiet_single, (p_try (PageOn _ _)).
  - apply emits_emit, quiet_single, (p_try (Goto _ _ _ _)).
  - apply emits_forEach; [reflexivity | exact (without_app p) | exact quiet_onRequest].
  - intros b. reflexivity.
  - match goal with r : option HTTPResponse |- _ => destruct r end;
      [|apply emits_ret; reflexivity].
    apply (emits_bind _ (without_app p));
      [apply emits_await, quiet_single, (p_try (PageContent _))|].
    intros serialized. destruct (_ || _)%bool;
      (apply (emits_bind _ (without_app p));
       [apply quiet_log | intros; apply emits_ret; reflexivity]).
Qed.

Lemma quiet_guarded pp page url ok b :
  count p (match result (fetchPage pp page url b) with
           | Ok _ => events (fetchPage pp page url b)
           | Throw e =>
               events (fetchPage pp page url b)
               ++ events (onError pp url e (browserAfter (fetchPage pp page url b)))
           end ++ [Invoked (PageClose page) ok])%list
  = count p [Invoked (PageClose page) ok].
Proof.
  rewrite count_app.
  assert (H : count p (match result (fetchPage pp page url b) with
           | Ok _ => events (fetchPage pp page url b)
           | Throw e =>
               events (fetchPage pp page url b)
               ++ events (onError pp url e (browserAfter (fetchPage pp page url b)))
           end)%list = 0%nat).
  { destruct (result (fetchPage pp page url b)).
    - apply quiet_fetchPage.
    - rewrite count_app, (quiet_fetchPage pp page url b).
      now rewrite (onError_without p p_logged pp url e _). }
  now rewrite H.
Qed.

End Calls.

(** Whatever an observer counts among the calls of acquisition, context
    and page creation and the final close, the rest of the fetch adds
    nothing to. *)
Lemma count_of_fetch p pp url b0 :
  (forall level message trace, p (Logged level message trace) = false) ->
  (forall c ok,
      match c with
      | SetUserAgent _ _ _ | SetViewport _ _ _ | EvaluateOnNewDocument _ _
      | SetRequestInterception _ _ | PageOn _ _ | Goto _ _ _ _
      | RequestAbort _ _ | RequestContinue _ | PageContent _ =>
          p (Invoked c ok) = false
      | _ => True
      end) ->
  count p (events (getPageContent pp url b0)) =
  (count p (events (getBrowser pp b0))
   + match result (getBrowser pp b0) with
     | Throw _ => 0
     | Ok browser =>
         count p [Invoked (CreateBrowserContext browser)
                          (resolved (createBrowserContext pp))]
         + match createBrowserContext pp with
           | Throw _ => 0
           | Ok context =>
               count p [Invoked (NewPage context) (resolved (newPage pp))]
               + match newPage pp with
                 | Throw _ => 0
                 | Ok page =>
                     count p [Invoked (PageClose page) (resolved (close pp))]
                 end
           end
     end)%nat.
Proof.
  intros Hl Ht. rewrite getPageContent_unfold. cbn zeta.
  destruct (result (getBrowser pp b0)); cbn [events]; [|lia].
  destruct (createBrowserContext pp); cbn [events resolved];
    [|rewrite count_app; lia].
  destruct (newPage pp) as [page|]; cbn [events resolved];
    [|rewrite !count_app; lia].
  rewrite guarded_events, !count_app.
  rewrite <- count_app. rewrite (quiet_guarded p Hl Ht). lia.
Qed.

(** ** The trace of a fetch, piece by piece *)

Lemma getBrowser_events pp stored :
  events (getBrowser pp stored) =
  match activeBrowser pp stored with
  | Some _ => []
  | None =>
      Logged LevelLog "No active browser found. Launching a new instance..." None
      :: Invoked UseStealthPlugin true
      :: Invoked (Launch "new" ["--no-sandbox"; "--disable-setuid-sandbox";
                                "--disable-dev-shm-usage"])
                 (resolved (launch pp))
      :: match launch pp with
         | Ok fresh => [Invoked (BrowserOn fresh "disconnected") true]
         | Throw _ => []
         end
  end.
Proof.
  unfold getBrowser, bind, getThisBrowser. cbn [result browserAfter events].
  destruct (activeBrowser pp stored); [reflexivity|]. cbn.
  destruct (launch pp); reflexivity.
Qed.

Lemma onError_events pp url e b :
  events (onError pp url e b) =
  [Logged LevelError ("An error occurred while processing " ++ url ++ ":")
          (Some (stack e))].
Proof.
  unfold onError. rewrite events_bind. cbn [result events emit browserAfter].
  destruct (instanceofTimeoutError e); reflexivity.
Qed.

Lemma onRequest_never_navigates r b : navigations (events (onRequest r b)) = 0%nat.
Proof.
  unfold onRequest. destruct (RegExp.test _ _); [reflexivity|].
  destruct (JsString.some _ _); reflexivity.
Qed.

Lemma forEach_onRequest_settles l b :
  map fst (interceptions (events (forEach onRequest l b))) = l
  /\ navigations (events (forEach onRequest l b)) = 0%nat.
Proof.
  revert b; induction l as [|r l IH]; intros b; simpl; [now split|].
  rewrite events_bind.
  destruct (onRequest_completes r b) as [Hr Hb]. rewrite Hr, Hb.
  destruct (onRequest_decides r b) as [a [Ha _]].
  rewrite interceptions_app, Ha. unfold navigations. rewrite count_app.
  destruct (IH b) as [IH1 IH2]. split.
  - cbn. now rewrite IH1.
  - unfold navigations in IH2. rewrite IH2.
    pose proof (onRequest_never_navigates r b) as H. unfold navigations in H.
    now rewrite H.
Qed.

(** The try block once the calls before navigation have completed. *)
Lemma fetchPage_events_navigating pp page url b :
  setupCompletes pp = true ->
  exists after,
    events (fetchPage pp page url b)
    = (navigationBlock page url (resolved (goto pp))
       ++ events (forEach onRequest (requests pp) b) ++ after)%list
    /\ interceptions after = []
    /\ navigations after = 0%nat
    /\ closeCalls after = 0%nat.
Proof.
  intros Hs. apply setupCompletes_inv in Hs. destruct Hs as (H1 & H2 & H3 & H4).
  unfold fetchPage.
  destruct (pageGoto_run pp page url b) as [Hr Hb].
  assert (Hg : events (pageGoto pp page url onRequest b)
               = (Invoked (Goto page url "networkidle2" 60000) (resolved (goto pp))
                  :: events (forEach onRequest (requests pp) b))%list).
  { unfold pageGoto. rewrite events_bind. cbn [result events emit browserAfter].
    rewrite events_bind.
    destruct (forEach_onRequest_completes (requests pp) b) as [-> _].
    cbn [events]. now rewrite app_nil_r. }
  repeat (rewrite events_bind;
          cbn [result browserAfter events await invoke emit log];
          rewrite ?H1, ?H2, ?H3, ?H4, ?Hr, ?Hb, ?Hg).
  cbn [resolved].
  destruct (goto pp) as [[response|]|].
  - rewrite events_bind. cbn [result browserAfter events await].
    destruct (content pp) as [h|].
    + destruct (_ || _)%bool; rewrite events_bind;
        cbn [result browserAfter events emit log ret];
        eexists; (split; [cbn; rewrite <- ?app_assoc; reflexivity|]);
        repeat split.
    + eexists. split; [cbn; rewrite <- ?app_assoc; reflexivity|]. repeat split.
  - exists []. split; [cbn; rewrite ?app_nil_r; reflexivity|]. repeat split.
  - exists []. split; [cbn; rewrite ?app_nil_r; reflexivity|]. repeat split.
Qed.

(** The try block when a call before navigation is rejected. *)
Lemma fetchPage_events_stopped pp page url b :
  setupCompletes pp = false ->
  interceptions (events (fetchPage pp page url b)) = []
  /\ navigations (events (fetchPage pp page url b)) = 0%nat.
Proof.
  unfold setupCompletes, fetchPage.
  repeat (rewrite events_bind;
          cbn [result browserAfter events await invoke emit log]).
  destruct (setUserAgent pp); [|intros _; split; reflexivity].
  destruct (setViewport pp); [|intros _; split; reflexivity].
  destruct (evaluateOnNewDocument pp); [|intros _; split; reflexivity].
  destruct (setRequestInterception pp); [|intros _; split; reflexivity].
  discriminate.
Qed.

(** A fetch whose page exists: what comes before the try block, the try
    block, then the catch block's log entry when the try block threw, and
    the close of the page. *)
Lemma getPageContent_events_split pp url b0 :
  pageOpens pp b0 = true ->
  exists browser context page,
    result (getBrowser pp b0) = Ok browser
    /\ createBrowserContext pp = Ok context
    /\ newPage pp = Ok page
    /\ events (getPageContent pp url b0)
       = (events (getBrowser pp b0)
          ++ [Invoked (CreateBrowserContext browser) true;
              Invoked (NewPage context) true]
          ++ events (fetchPage pp page url (browserAfter (getBrowser pp b0)))
          ++ match result (fetchPage pp page url None) with
             | Ok _ => []
             | Throw e =>
                 [Logged LevelError
                         ("An error occurred while processing " ++ url ++ ":")
                         (Some (stack e))]
             end
          ++ [Invoked (PageClose page) (resolved (close pp))])%list.
Proof.
  intros H. destruct (pageOpens_inv _ _ H) as (browser & context & page & Hb & Hc & Hp).
  exists browser, context, page. repeat (split; [assumption|]).
  rewrite getPageContent_unfold. cbn zeta. rewrite Hb, Hc, Hp. cbn [events].
  rewrite guarded_events, (fetchPage_result_any pp page url).
  destruct (result (fetchPage pp page url None)).
  - cbn [app]. rewrite <- ?app_assoc. reflexivity.
  - rewrite onError_events. cbn [app]. rewrite <- ?app_assoc. reflexivity.
Qed.

Lemma getBrowser_events_plain pp stored :
  interceptions (events (getBrowser pp stored)) = []
  /\ navigations (events (getBrowser pp stored)) = 0%nat
  /\ browserCloses (events (getBrowser pp stored)) = 0%nat
  /\ (launches (events (getBrowser pp stored)) <= 1)%nat.
Proof.
  rewrite getBrowser_events.
  destruct (activeBrowser pp stored); [repeat split; cbv; lia|].
  destruct (launch pp); repeat split; cbv; lia.
Qed.

Lemma getPageContent_events_closed pp url b0 :
  pageOpens pp b0 = false ->
  interceptions (events (getPageContent pp url b0)) = []
  /\ navigations (events (getPageContent pp url b0)) = 0%nat.
Proof.
  unfold pageOpens. rewrite getPageContent_unfold. cbn zeta.
  destruct (getBrowser_events_plain pp b0) as (Hi & Hn & _).
  unfold navigations in *.
  destruct (result (getBrowser pp b0)); cbn [events]; [|intros _; now split].
  destruct (createBrowserContext pp); cbn [events];
    [|intros _; rewrite interceptions_app, count_app, Hi, Hn; now split].
  destruct (newPage pp); cbn [events]; [discriminate|].
  intros _. rewrite !interceptions_app, !count_app, Hi, Hn. now split.
Qed.

(** ** Navigation and interception, in order *)

(** X6: Navigation is attempted exactly when the page exists and every call
    before it has completed, and then once: the trace passes through the
    profile, the interception switch and the listener, all completed, right
    before [page.goto] with the requested address, [networkidle2] and the
    60000 ms timeout.  Otherwise the trace has no navigation at all. *)
Theorem navigation_only_after_setup pp url b0 :
  if pageOpens pp b0 && setupCompletes pp
  then exists page before after,
         newPage pp = Ok page
         /\ events (getPageContent pp url b0)
            = (before ++ navigationBlock page url (resolved (goto pp)) ++ after)%list
         /\ navigations before = 0%nat
         /\ interceptions before = []
         /\ navigations after = 0%nat
         /\ navigations (events (getPageContent pp url b0)) = 1%nat
  else navigations (events (getPageContent pp url b0)) = 0%nat.
Proof.
  destruct (pageOpens pp b0) eqn:Ho; cbn [andb];
    [|now apply getPageContent_events_closed].
  destruct (getPageContent_events_split pp url b0 Ho)
    as (browser & context & page & Hb & Hc & Hp & Hev).
  destruct (getBrowser_events_plain pp b0) as (Hi & Hn & _).
  destruct (setupCompletes pp) eqn:Hs.
  - destruct (fetchPage_events_navigating pp page url
                (browserAfter (getBrowser pp b0)) Hs)
      as (tail & Hf & Hti & Htn & _).
    destruct (forEach_onRequest_settles (requests pp)
                (browserAfter (getBrowser pp b0))) as [_ Hrn].
    set (handled := events (forEach onRequest (requests pp)
                              (browserAfter (getBrowser pp b0)))) in *.
    set (last := (match result (fetchPage pp page url None) with
                  | Ok _ => [] | Throw e => _ end
                  ++ [Invoked (PageClose page) (resolved (close pp))])%list) in *.
    assert (Hl : navigations last = 0%nat).
    { subst last. destruct (result (fetchPage pp page url None)); reflexivity. }
    exists page,
      (events (getBrowser pp b0)
       ++ [Invoked (CreateBrowserContext browser) true;
           Invoked (NewPage context) true])%list,
      (handled ++ tail ++ last)%list.
    assert (Hshape : events (getPageContent pp url b0)
              = ((events (getBrowser pp b0)
                  ++ [Invoked (CreateBrowserContext browser) true;
                      Invoked (NewPage context) true])
                 ++ navigationBlock page url (resolved (goto pp))
                 ++ handled ++ tail ++ last)%list).
    { rewrite Hev, Hf. now rewrite <- !app_assoc. }
    split; [assumption|]. split; [exact Hshape|].
    unfold navigations in *.
    repeat split.
    + rewrite count_app, Hn. reflexivity.
    + rewrite interceptions_app, Hi. reflexivity.
    + rewrite !count_app, Hrn, Htn, Hl. reflexivity.
    + rewrite Hshape, !count_app, Hn, Hrn, Htn, Hl. reflexivity.
  - destruct (fetchPage_events_stopped pp page url
                (browserAfter (getBrowser pp b0)) Hs) as [_ Hfn].
    rewrite Hev. unfold navigations in *. rewrite !count_app, Hn, Hfn.
    destruct (result (fetchPage pp page url None)); reflexivity.
Qed.

(** X7: Every request the page issues is settled exactly once, in the order
    issued, when navigation is attempted; a fetch that does not get as far
    as navigation settles none. *)
Theorem every_request_is_settled_once pp url b0 :
  map fst (interceptions (events (getPageContent pp url b0)))
  = if pageOpens pp b0 && setupCompletes pp then requests pp else [].
Proof.
  destruct (pageOpens pp b0) eqn:Ho; cbn [andb].
  2:{ destruct (getPageContent_events_closed pp url b0 Ho) as [-> _]. reflexivity. }
  destruct (getPageContent_events_split pp url b0 Ho)
    as (browser & context & page & Hb & Hc & Hp & Hev).
  destruct (getBrowser_events_plain pp b0) as (Hi & _).
  rewrite Hev, !interceptions_app, Hi.
  assert (Hl : interceptions
                 (match result (fetchPage pp page url None) with
                  | Ok _ => []
                  | Throw e =>
                      [Logged LevelError
                              ("An error occurred while processing " ++ url ++ ":")
                              (Some (stack e))]
                  end) = []).
  { destruct (result (fetchPage pp page url None)); reflexivity. }
  rewrite Hl. cbn [interceptions app]. rewrite app_nil_r.
  destruct (setupCompletes pp) eqn:Hs.
  - destruct (fetchPage_events_navigating pp page url
                (browserAfter (getBrowser pp b0)) Hs)
      as (tail & -> & Hti & _).
    rewrite !interceptions_app, Hti, app_nil_r. cbn [interceptions app].
    apply forEach_onRequest_settles.
  - destruct (fetchPage_events_stopped pp page url
                (browserAfter (getBrowser pp b0)) Hs) as [-> _]. reflexivity.
Qed.

(** ** Further outcomes *)

(** X8: The success path: a response whose status is not 403 and whose
    serialization has no challenge marker comes back with the status of
    the response, the serialization, the page's current address and no
    error, whatever that status is. *)
Theorem unchallenged_response_is_passed_through pp url b0 response h :
  pageOpens pp b0 = true ->
  setupCompletes pp = true ->
  goto pp = Ok (Some response) ->
  content pp = Ok h ->
  close pp = Ok tt ->
  ~ JsString.Substring "px-captcha" h ->
  resp_status response <> 403 ->
  result (getPageContent pp url b0) =
  Ok {| html := Some h;
        status := resp_status response;
        error := None;
        finalUrl := pageUrl pp |}.
Proof.
  intros Ho Hs Hg Hc Hx Hm Hst.
  destruct (getPageContent_result pp url b0 Ho) as (page & _ & ->).
  rewrite Hx. cbn [andThen].
  rewrite (fetchPage_with_response pp page url response h Hs Hg Hc).
  assert (E : JsString.includes h "px-captcha" || (resp_status response =? 403) = false).
  { apply orb_false_iff. split.
    - destruct (JsString.includes h "px-captcha") eqn:E; [|reflexivity].
      exfalso. apply Hm. now apply includes_spec.
    - now apply Z.eqb_neq. }
  now rewrite E.
Qed.

Lemma unchallenged_response_is_passed_through_witness :
  pageOpens serverError None = true
  /\ setupCompletes serverError = true
  /\ goto serverError = Ok (Some {| resp_status := 500 |})
  /\ content serverError = Ok "<html>Internal Server Error</html>"
  /\ close serverError = Ok tt
  /\ result (getPageContent serverError exampleUrl None) =
     Ok {| html := Some "<html>Internal Server Error</html>";
           status := 500;
           error := None;
           finalUrl := pageUrl serverError |}.
Proof.
  repeat (split; [reflexivity|]).
  apply (unchallenged_response_is_passed_through serverError exampleUrl None
           {| resp_status := 500 |} "<html>Internal Server Error</html>");
    try reflexivity.
  - intros H. apply includes_spec in H. discriminate.
  - discriminate.
Defined.

(** X9: A navigation rejected with anything but a timeout (a name that does
    not resolve, a refused connection) ends in the 500 result, not 502:
    no HTML, a fixed message that says nothing about the error, and the
    page's address or else the requested one.  The error's stack goes to
    the log at error level. *)
Theorem navigation_error_is_classified_500 pp url b0 st :
  pageOpens pp b0 = true ->
  setupCompletes pp = true ->
  goto pp = Throw (OtherError st) ->
  close pp = Ok tt ->
  result (getPageContent pp url b0) =
  Ok {| html := None;
        status := 500;
        error := Some "An unexpected internal error occurred during page processing. See service logs for details.";
        finalUrl := Some match pageUrl pp with
                         | Some current => current
                         | None => url
                         end |}
  /\ In (Logged LevelError ("An error occurred while processing " ++ url ++ ":")
                (Some st))
        (events (getPageContent pp url b0)).
Proof.
  intros Ho Hs Hg Hx.
  destruct (getPageContent_events_split pp url b0 Ho)
    as (browser & context & page & _ & _ & Hp & Hev).
  destruct (getPageContent_result pp url b0 Ho) as (page' & Hp' & Hr).
  assert (page' = page) by congruence. subst page'.
  pose proof (fetchPage_navigation_throws pp page url _ Hs Hg) as Hf.
  split.
  - rewrite Hr, Hx, Hf. cbn [andThen]. now rewrite onError_result.
  - rewrite Hev, Hf. cbn [stack].
    apply in_or_app. right. apply in_or_app. right. apply in_or_app. right.
    left. reflexivity.
Qed.

Lemma navigation_error_is_classified_500_witness :
  pageOpens resolutionFails None = true
  /\ setupCompletes resolutionFails = true
  /\ goto resolutionFails = Throw resolutionFailure
  /\ close resolutionFails = Ok tt
  /\ result (getPageContent resolutionFails exampleUrl None) =
     Ok {| html := None;
           status := 500;
           error := Some "An unexpected internal error occurred during page processing. See service logs for details.";
           finalUrl := Some match pageUrl resolutionFails with
                            | Some current => current
                            | None => exampleUrl
                            end |}
  /\ In (Logged LevelError
                ("An error occurred while processing " ++ exampleUrl ++ ":")
                (Some "Error: net::ERR_NAME_NOT_RESOLVED at https://example.test/ok"))
        (events (getPageContent resolutionFails exampleUrl None)).
Proof.
  repeat (split; [reflexivity|]).
  apply (navigation_error_is_classified_500 resolutionFails exampleUrl None
           "Error: net::ERR_NAME_NOT_RESOLVED at https://example.test/ok");
    reflexivity.
Defined.

(** X10: When [page.close()] is rejected in the finally block, its error leaves
    [getPageContent] in place of whatever the try and catch blocks had
    produced, after the one close attempt. *)
Theorem close_rejection_replaces_result pp url b0 e :
  pageOpens pp b0 = true ->
  close pp = Throw e ->
  result (getPageContent pp url b0) = Throw e
  /\ closeCalls (events (getPageContent pp url b0)) = 1%nat
  /\ exists page,
       newPage pp = Ok page
       /\ In (Invoked (PageClose page) false) (events (getPageContent pp url b0)).
Proof.
  intros Ho Hx. split; [now apply cleanup_failure_escapes|].
  destruct (getPageContent_events pp url b0 Ho)
    as (page & before & Hp & Hev & Hc & _).
  rewrite Hx in Hev. cbn [resolved] in Hev. split.
  - rewrite Hev. unfold closeCalls in *. rewrite count_app, Hc. reflexivity.
  - exists page. split; [assumption|]. rewrite Hev.
    apply in_or_app. right. left. reflexivity.
Qed.

Lemma close_rejection_replaces_result_witness :
  pageOpens closeFails None = true
  /\ close closeFails = Throw closeFailure
  /\ result (getPageContent closeFails exampleUrl None) = Throw closeFailure
  /\ closeCalls (events (getPageContent closeFails exampleUrl None)) = 1%nat
  /\ exists page,
       newPage closeFails = Ok page
       /\ In (Invoked (PageClose page) false)
             (events (getPageContent closeFails exampleUrl None)).
Proof.
  repeat (split; [reflexivity|]).
  apply (close_rejection_replaces_result closeFails exampleUrl None closeFailure);
    reflexivity.
Defined.

(** ** The browser of a fetch *)

(** What an observer of acquisition's calls counts in a fetch, it counts
    in the acquisition. *)
Lemma count_beyond_acquisition p pp url b0 :
  (forall level message trace, p (Logged level message trace) = false) ->
  (forall c ok, match c with
                | UseStealthPlugin | Launch _ _ | BrowserOn _ _
                | BrowserClose _ => True
                | _ => p (Invoked c ok) = false
                end) ->
  count p (events (getPageContent pp url b0))
  = count p (events (getBrowser pp b0)).
Proof.
  intros Hlog Hcalls. rewrite count_of_fetch; [|assumption|].
  - destruct (result (getBrowser pp b0)) as [browser|]; [|lia].
    unfold count at 2. cbn [filter].
    rewrite (Hcalls (CreateBrowserContext browser) _). cbn [List.length].
    destruct (createBrowserContext pp) as [context|]; [|lia].
    unfold count at 2. cbn [filter].
    rewrite (Hcalls (NewPage context) _). cbn [List.length].
    destruct (newPage pp) as [page|]; [|lia].
    unfold count at 2. cbn [filter].
    rewrite (Hcalls (PageClose page) _). cbn [List.length]. lia.
  - intros c ok. pose proof (Hcalls c ok). destruct c; try exact I; assumption.
Qed.

Lemma launches_of_fetch pp url b0 :
  launches (events (getPageContent pp url b0))
  = launches (events (getBrowser pp b0)).
Proof.
  apply count_beyond_acquisition;
    [intros; reflexivity | intros []; intros; try exact I; reflexivity].
Qed.

(** X11: A fetch never calls [browser.close()], and it launches a browser
    only through its one call of [getBrowser]: at most once, whatever its
    outcome. *)
Theorem fetch_never_closes_the_browser pp url b0 :
  browserCloses (events (getPageContent pp url b0)) = 0%nat
  /\ launches (events (getPageContent pp url b0))
     = launches (events (getBrowser pp b0))
  /\ (launches (events (getPageContent pp url b0)) <= 1)%nat.
Proof.
  destruct (getBrowser_events_plain pp b0) as (_ & _ & Hc & Hl).
  rewrite launches_of_fetch.
  repeat split; try assumption.
  unfold browserCloses in *. rewrite count_beyond_acquisition;
    [assumption | intros; reflexivity
     | intros []; intros; try exact I; reflexivity].
Qed.

(** X12: A fetch that starts while [this.browser] holds a handle reporting
    itself connected launches nothing and opens its context on that
    browser. *)
Theorem fetch_reuses_a_connected_browser pp url browser :
  connected pp browser = true ->
  launches (events (getPageContent pp url (Some browser))) = 0%nat
  /\ In (Invoked (CreateBrowserContext browser) (resolved (createBrowserContext pp)))
        (events (getPageContent pp url (Some browser))).
Proof.
  intros Hc.
  pose proof (getBrowser_reuse pp (Some browser) browser eq_refl Hc) as Hg.
  split.
  - rewrite launches_of_fetch. now rewrite Hg.
  - rewrite getPageContent_unfold. cbn zeta. rewrite Hg. cbn [result events app].
    destruct (createBrowserContext pp); cbn [events resolved]; [|now left].
    destruct (newPage pp); cbn [events]; now left.
Qed.

Lemma fetch_reuses_a_connected_browser_witness :
  connected succeeds 5%nat = true
  /\ launches (events (getPageContent succeeds exampleUrl (Some 5%nat))) = 0%nat
  /\ In (Invoked (CreateBrowserContext 5%nat)
                 (resolved (createBrowserContext succeeds)))
        (events (getPageContent succeeds exampleUrl (Some 5%nat))).
Proof.
  split; [reflexivity|].
  apply (fetch_reuses_a_connected_browser succeeds exampleUrl 5%nat).
  reflexivity.
Defined.

(** ** Contexts and pages *)

(** X13: A fetch creates at most one context and at most one page, a page only
    in a context, and calls [page.close()] once per page created.  A
    context is left with nothing closed exactly when it was created and
    [context.newPage()] was then rejected. *)
Theorem contexts_and_pages_of_a_fetch pp url b0 :
  (pagesCreated (events (getPageContent pp url b0))
   <= contextsCreated (events (getPageContent pp url b0)) <= 1)%nat
  /\ closeCalls (events (getPageContent pp url b0))
     = pagesCreated (events (getPageContent pp url b0))
  /\ (contextsCreated (events (getPageContent pp url b0)) = 1%nat
      /\ closeCalls (events (getPageContent pp url b0)) = 0%nat
      <-> resolved (result (getBrowser pp b0))
          && resolved (createBrowserContext pp)
          && negb (resolved (newPage pp)) = true).
Proof.
  assert (Hg : forall p,
            (forall level message trace, p (Logged level message trace) = false) ->
            (forall c ok, match c with
                          | CreateBrowserContext _ | NewPage _ | PageClose _ => True
                          | _ => p (Invoked c ok) = false
                          end) ->
            count p (events (getPageContent pp url b0))
            = match result (getBrowser pp b0) with
              | Throw _ => 0
              | Ok browser =>
                  count p [Invoked (CreateBrowserContext browser)
                                   (resolved (createBrowserContext pp))]
                  + match createBrowserContext pp with
                    | Throw _ => 0
                    | Ok context =>
                        count p [Invoked (NewPage context) (resolved (newPage pp))]
                        + match newPage pp with
                          | Throw _ => 0
                          | Ok page =>
                              count p [Invoked (PageClose page) (resolved (close pp))]
                          end
                    end
              end%nat).
  { intros p Hl Hc. rewrite count_of_fetch; [|assumption|].
    - now rewrite (getBrowser_without p Hl Hc pp b0).
    - intros c ok. pose proof (Hc c ok). destruct c; try exact I; assumption. }
  unfold pagesCreated, contextsCreated, closeCalls.
  rewrite !Hg; try (intros; reflexivity);
    try (intros []; intros; try exact I; reflexivity).
  destruct (result (getBrowser pp b0)); cbn; [|split; [lia|split; [lia|]]].
  2:{ split; [intros [? _]|]; discriminate. }
  destruct (createBrowserContext pp); cbn; [|split; [lia|split; [lia|]]].
  2:{ split; [intros [? _]|]; discriminate. }
  destruct (newPage pp); cbn; (split; [lia|split; [lia|]]);
    (split; [intros [H1 H2]; try discriminate; reflexivity
            | intros H; try discriminate; split; reflexivity]).
Qed.

(** ** What the route handler sends *)

(** A returned result with no HTML is a failure result, and returned HTML
    is the serialization of the page. *)
Lemma returned_html pp url b0 r :
  result (getPageContent pp url b0) = Ok r ->
  (html r = None ->
   error r <> None /\ (status r = 502 \/ status r = 504 \/ status r = 500))
  /\ (forall h, html r = Some h -> content pp = Ok h).
Proof.
  intros H. destruct (returned_result pp url b0 r H) as (_ & _ & page & Hr).
  destruct Hr as [Hr | (e & _ & Hr)].
  - pose proof (fetchPage_ends pp page url) as He. rewrite Hr in He.
    destruct He as [_ [(Hg & Hh & Hs & Herr & _)
                      | (response & h & Hg & Hc & Hh & _ & _)]].
    + split; [auto | congruence].
    + split; congruence.
  - rewrite onError_result in Hr. injection Hr as <-.
    destruct (instanceofTimeoutError e); cbn;
      (split; [intros _; split; [discriminate | auto] | discriminate]).
Qed.

(** X14: The route handler answers with the header [Content-Type: text/html],
    the status of the result and its html as the body, in that order and
    nothing else: the body is the page's serialization or null, and a null
    body goes with a failure status, so the error message and finalUrl of
    a result reach no call on the response.  When [getPageContent] is
    rejected the handler is rejected too and calls nothing on the
    response. *)
Theorem unblockWebsite_sends_status_and_html pp dto b0 :
  match handlerOutcome (unblockWebsite pp dto b0) with
  | Throw e =>
      result (getPageContent pp (dto_url dto) b0) = Throw e
      /\ responseCalls (unblockWebsite pp dto b0) = []
  | Ok _ =>
      exists r,
        result (getPageContent pp (dto_url dto) b0) = Ok r
        /\ responseCalls (unblockWebsite pp dto b0)
           = [ SetHeader "Content-Type" "text/html";
               SetStatus (status r);
               Send (html r) ]
        /\ (html r = None ->
            error r <> None
            /\ (status r = 502 \/ status r = 504 \/ status r = 500))
        /\ (forall h, html r = Some h -> content pp = Ok h)
  end.
Proof.
  unfold unblockWebsite. cbn zeta.
  destruct (result (getPageContent pp (dto_url dto) b0)) as [r|e] eqn:Hr;
    cbn [handlerOutcome responseCalls]; [|now split].
  exists r. split; [reflexivity|]. split; [reflexivity|].
  now apply (returned_html pp (dto_url dto) b0).
Qed.

(** X15: A navigation that times out is answered with status 504 and a null
    body: the timeout message of the result is not sent. *)
Theorem timeout_is_answered_with_empty_504 pp dto b0 st :
  pageOpens pp b0 = true ->
  setupCompletes pp = true ->
  goto pp = Throw (TimeoutError st) ->
  close pp = Ok tt ->
  handlerOutcome (unblockWebsite pp dto b0) = Ok tt
  /\ responseCalls (unblockWebsite pp dto b0)
     = [ SetHeader "Content-Type" "text/html"; SetStatus 504; Send None ].
Proof.
  intros Ho Hs Hg Hx.
  destruct (pageOpens_inv _ _ Ho) as (browser & context & page & _ & _ & Hp).
  pose proof (timeout_in_try_block pp (dto_url dto) b0 page st Ho Hp
                (fetchPage_navigation_throws pp page _ _ Hs Hg) Hx) as Hr.
  unfold unblockWebsite. cbn zeta. rewrite Hr. now split.
Qed.

Lemma timeout_is_answered_with_empty_504_witness :
  pageOpens timesOut None = true
  /\ setupCompletes timesOut = true
  /\ goto timesOut = Throw navigationTimeout
  /\ close timesOut = Ok tt
  /\ handlerOutcome
       (unblockWebsite timesOut {| dto_url := exampleUrl; dto_render := true |} None)
     = Ok tt
  /\ responseCalls
       (unblockWebsite timesOut {| dto_url := exampleUrl; dto_render := true |} None)
     = [ SetHeader "Content-Type" "text/html"; SetStatus 504; Send None ].
Proof.
  repeat (split; [reflexivity|]).
  apply (timeout_is_answered_with_empty_504 timesOut
           {| dto_url := exampleUrl; dto_render := true |} None
           "TimeoutError: Navigation timeout of 60000 ms exceeded");
    reflexivity.
Defined.

(** ** The overrides seen by page script *)

Lemma split_first sep s :
  exists first rest,
    split sep s = first :: rest
    /\ JsString.includes first (String sep EmptyString) = false
    /\ (rest = [] /\ s = first
        \/ exists tail, rest <> [] /\ s = first ++ String sep tail).
Proof.
  induction s as [|c s IH].
  - exists "", []. repeat split. now left.
  - destruct IH as (first & rest & Hs & Hn & Hcase). cbn [split].
    destruct (Ascii.eqb c sep) eqn:E.
    + apply Ascii.eqb_eq in E. subst c.
      exists "", (split sep s). repeat split.
      right. exists s. split; [rewrite Hs; discriminate | reflexivity].
    + rewrite Hs. exists (String c first), rest. split; [reflexivity|]. split.
      * cbn [JsString.includes JsString.startsWith]. rewrite E. cbn [andb orb].
        exact Hn.
      * destruct Hcase as [[-> ->] | (tail & Hr & ->)]; [now left|].
        right. exists tail. split; [assumption | reflexivity].
Qed.

(** X16: The locale that the overridden [resolvedOptions] reports is always
    defined, has no comma, and is what precedes the first comma of the
    profile's locale, which [navigator.language] reports whole and
    [navigator.languages] holds as its only entry; [navigator.webdriver]
    reads false. *)
Theorem reported_locale_is_first_component profile :
  exists first,
    ro_locale (intl_resolvedOptions (onNewDocument profile)) = Some first
    /\ JsString.includes first "," = false
    /\ (nav_language (onNewDocument profile) = first
        \/ exists tail, nav_language (onNewDocument profile) = first ++ "," ++ tail)
    /\ nav_languages (onNewDocument profile) = [nav_language (onNewDocument profile)]
    /\ nav_webdriver (onNewDocument profile) = false.
Proof.
  destruct (split_first "," (locale profile)) as (first & rest & Hs & Hn & Hcase).
  exists first. cbn. rewrite Hs. cbn. repeat split; try assumption.
  destruct Hcase as [[_ ->] | (tail & _ & ->)]; [now left | right; now exists tail].
Qed.

(** ** The init-script pattern, as a test on addresses *)

(** X17: [PXSCRIPT_PATTERN.test] holds of an address exactly when it contains,
    anywhere, a slash, one or more ASCII letters or digits, a slash and
    [init.js] in any letter case. *)
Theorem test_finds_init_script_path url :
  RegExp.test PXSCRIPT_PATTERN url = true <->
  exists pre mid post, url = pre ++ mid ++ post /\ InitScriptPath mid.
Proof.
  rewrite test_spec. apply PXSCRIPT_PATTERN_found.
Qed.

Lemma upper_append a b : upper (a ++ b) = upper a ++ upper b.
Proof. induction a as [|c a IH]; simpl; [reflexivity | now rewrite IH]. Qed.

Lemma toUpperCase_idempotent c :
  RegExp.toUpperCase (RegExp.toUpperCase c) = RegExp.toUpperCase c.
Proof. destruct c as [[] [] [] [] [] [] [] []]; reflexivity. Qed.

Lemma toUpperCase_alnum c : isAlnum (RegExp.toUpperCase c) = isAlnum c.
Proof. destruct c as [[] [] [] [] [] [] [] []]; reflexivity. Qed.

Lemma toUpperCase_slash c : RegExp.toUpperCase c = "/"%char -> c = "/"%char.
Proof. destruct c as [[] [] [] [] [] [] [] []]; intros H; try discriminate; reflexivity. Qed.

Lemma upper_idempotent s : upper (upper s) = upper s.
Proof.
  induction s as [|c s IH]; simpl; [reflexivity|].
  now rewrite toUpperCase_idempotent, IH.
Qed.

Lemma upper_alnum s : allChars isAlnum (upper s) = allChars isAlnum s.
Proof.
  induction s as [|c s IH]; simpl; [reflexivity|].
  now rewrite toUpperCase_alnum, IH.
Qed.

(** A split of the upper-cased text is the upper-casing of a split. *)
Lemma upper_split a : forall s b,
  upper s = a ++ b ->
  exists a' b', s = a' ++ b' /\ upper a' = a /\ upper b' = b.
Proof.
  induction a as [|c a IH]; intros s b H.
  - exists "", s. now repeat split.
  - destruct s as [|d s]; [discriminate|]. simpl in H. injection H as Hc H.
    destruct (IH s b H) as (a' & b' & -> & Ha & Hb).
    exists (String d a'), b'. simpl. now rewrite Hc, Ha.
Qed.

Lemma InitScriptPath_upper mid : InitScriptPath mid -> InitScriptPath (upper mid).
Proof.
  intros (run & tail & -> & Hne & Hall & Ht).
  exists (upper run), (upper tail).
  rewrite !upper_append, upper_alnum, upper_idempotent.
  repeat split; try assumption.
  destruct run; [contradiction | discriminate].
Qed.

Lemma InitScriptPath_lower mid' :
  InitScriptPath (upper mid') -> InitScriptPath mid'.
Proof.
  intros (run & tail & H & Hne & Hall & Ht).
  destruct mid' as [|c rest]; [discriminate|].
  simpl in H. injection H as Hc H. apply toUpperCase_slash in Hc. subst c.
  destruct (upper_split run rest _ H) as (run' & more & -> & Hr & Hm).
  destruct more as [|c tail']; [discriminate|].
  simpl in Hm. injection Hm as Hc Htl. apply toUpperCase_slash in Hc. subst c.
  exists run', tail'. repeat split.
  - intros ->. apply Hne. now rewrite <- Hr.
  - now rewrite <- upper_alnum, Hr.
  - now rewrite <- upper_idempotent, Htl.
Qed.

(** X18: The test ignores the letter case of the address: an address and its
    upper-casing are matched alike. *)
Theorem test_ignores_letter_case url :
  RegExp.test PXSCRIPT_PATTERN (upper url) = RegExp.test PXSCRIPT_PATTERN url.
Proof.
  apply eq_true_iff_eq. rewrite !test_spec, !PXSCRIPT_PATTERN_found. split.
  - intros (pre & mid & post & H & Hm).
    destruct (upper_split pre url _ H) as (pre' & more & -> & Hp & Hmore).
    destruct (upper_split mid more _ Hmore) as (mid' & post' & -> & Hmid & Hpost).
    exists pre', mid', post'. split; [reflexivity|].
    apply InitScriptPath_lower. now rewrite Hmid.
  - intros (pre & mid & post & -> & Hm).
    exists (upper pre), (upper mid), (upper post).
    rewrite !upper_append. split; [reflexivity|]. now apply InitScriptPath_upper.
Qed.
